(** * Order lifecycle of the food-delivery API

    A shallow embedding of the order state machine
    ([statemachine/order_state.go]), of the storage operations the
    handlers issue through [config.DB], and of the handlers that move an
    order from one status to the next ([handlers/customer.go],
    [handlers/restaurant_order.go], [handlers/driver.go],
    [handlers/admin.go]). *)

From stdpp Require Import gmap strings list fin_maps.

(** ** package models *)

Module models.

(** [type OrderStatus string]: a status is any string; the seven
    constants below are the ones the workflow names. *)
Definition OrderStatus : Type := string.

Definition StatusPlaced : OrderStatus := "PLACED".
Definition StatusConfirmed : OrderStatus := "CONFIRMED".
Definition StatusPreparing : OrderStatus := "PREPARING".
Definition StatusReadyForPickup : OrderStatus := "READY_FOR_PICKUP".
Definition StatusPickedUp : OrderStatus := "PICKED_UP".
Definition StatusDelivered : OrderStatus := "DELIVERED".
Definition StatusCancelled : OrderStatus := "CANCELLED".

(** The declared constants, in declaration order. *)
Definition all_statuses : list OrderStatus :=
  [StatusPlaced; StatusConfirmed; StatusPreparing; StatusReadyForPickup;
   StatusPickedUp; StatusDelivered; StatusCancelled].

(** The structs below keep the columns that the order workflow reads or
    writes. The [float64] columns (prices, rating), the time stamps and
    the preloaded association structs take no part in any status
    decision and are not embedded. Go's [uint] is [nat], [int] is [Z]. *)

Module OrderItem.
Record t : Type := mk {
  MenuItemID : nat;
  Quantity : Z;
  Name : string
}.
End OrderItem.

Module Order.
Record t : Type := mk {
  ID : nat;
  CustomerID : nat;
  RestaurantID : nat;
  DriverID : option nat;     (* [*uint]: [None] is [nil] *)
  Status : OrderStatus;
  DeliveryAddress : string;
  Notes : string;
  EstimatedTime : Z;
  Items : list OrderItem.t
}.
End Order.

Module OrderStatusHistory.
Record t : Type := mk {
  ID : nat;
  OrderID : nat;
  FromStatus : OrderStatus;  (* the zero value, the empty string, when unset *)
  ToStatus : OrderStatus;
  ChangedBy : nat;           (* the zero value [0] when unset *)
  Note : string
}.
End OrderStatusHistory.

Module Restaurant.
Record t : Type := mk {
  ID : nat;
  OwnerID : nat;
  Name : string;
  IsOpen : bool
}.
End Restaurant.

Module MenuItem.
Record t : Type := mk {
  ID : nat;
  RestaurantID : nat;
  Name : string;
  IsAvailable : bool
}.
End MenuItem.

End models.

Import models.

(** ** package statemachine *)

Module statemachine.

(** [type Transition struct { From, To models.OrderStatus; Actor string }] *)
Record Transition : Type := mkTransition {
  From : OrderStatus;
  To : OrderStatus;
  Actor : string
}.

Definition validTransitions : list Transition := [
  mkTransition StatusPlaced StatusConfirmed "restaurant";
  mkTransition StatusPlaced StatusCancelled "restaurant";
  mkTransition StatusPlaced StatusCancelled "customer";
  mkTransition StatusConfirmed StatusPreparing "restaurant";
  mkTransition StatusConfirmed StatusCancelled "restaurant";
  mkTransition StatusConfirmed StatusCancelled "customer";
  mkTransition StatusPreparing StatusReadyForPickup "restaurant";
  mkTransition StatusReadyForPickup StatusPickedUp "driver";
  mkTransition StatusPickedUp StatusDelivered "driver"
].

#[global] Instance Transition_eq_dec : EqDecision Transition.
Proof. solve_decision. Defined.

(** [transitionKey] is the key of the lookup map; the source declares it
    as a second struct with the same three fields. *)
Record transitionKey : Type := mkKey {
  kFrom : OrderStatus;
  kTo : OrderStatus;
  kActor : string
}.

#[global] Instance transitionKey_eq_dec : EqDecision transitionKey.
Proof. solve_decision. Defined.

#[global] Instance transitionKey_countable : Countable transitionKey.
Proof.
  refine (inj_countable'
            (fun k => (kFrom k, kTo k, kActor k))
            (fun t => mkKey t.1.1 t.1.2 t.2) _).
  by intros [].
Defined.

(** [transitionKey{t.From, t.To, t.Actor}] *)
Definition key_of (t : Transition) : transitionKey :=
  mkKey (From t) (To t) (Actor t).

(** [for _, t := range validTransitions { m[transitionKey{...}] = true }] *)
Definition build_map (ts : list Transition) : gmap transitionKey bool :=
  foldl (fun m t => <[key_of t := true]> m) ∅ ts.

Definition transitionMap : gmap transitionKey bool := build_map validTransitions.

(** Reading a Go map at a missing key gives the zero value, [false]. *)
Definition map_get (m : gmap transitionKey bool) (k : transitionKey) : bool :=
  default false (m !! k).

(** Reading [seen[t.To]] likewise. *)
Definition seen_get (seen : gmap OrderStatus bool) (s : OrderStatus) : bool :=
  default false (seen !! s).

(** One iteration of the loop of [ValidTransitionsFrom]; the loop state
    is the pair of the slice [nexts] and the map [seen]. *)
Definition vtf_step (status : OrderStatus)
    (acc : list OrderStatus * gmap OrderStatus bool) (t : Transition)
    : list OrderStatus * gmap OrderStatus bool :=
  if bool_decide (From t = status) && negb (seen_get acc.2 (To t))
  then (acc.1 ++ [To t], <[To t := true]> acc.2)
  else acc.

Definition ValidTransitionsFrom (status : OrderStatus) : list OrderStatus :=
  (foldl (vtf_step status) ([], ∅) validTransitions).1.

(** The invariant of that loop: [seen] marks exactly the statuses already
    in [nexts], and [nexts] has no repeats. *)
Definition vtf_inv (acc : list OrderStatus * gmap OrderStatus bool) : Prop :=
  (∀ x, seen_get acc.2 x = true ↔ x ∈ acc.1) ∧ NoDup acc.1.

(** The text built by the loop [for i, s := range nexts]. *)
Fixpoint join_statuses (i : nat) (nexts : list OrderStatus) (result : string) : string :=
  match nexts with
  | [] => result
  | s :: rest =>
      join_statuses (S i) rest
        ((if decide (0 < i) then result +:+ ", " else result) +:+ s)
  end.

Definition describeValidFrom (status : OrderStatus) : string :=
  let nexts := ValidTransitionsFrom status in
  if decide (length nexts = 0) then "none (terminal state)"
  else join_statuses 0 nexts "".

(** A Go [error] is [None] for [nil] and [Some msg] for [errors.New msg]. *)
Definition error : Type := option string.

Definition invalid_transition_message (from to : OrderStatus) (actor : string) : string :=
  "invalid transition: " +:+ from +:+ " → " +:+ to +:+
  " is not allowed for actor '" +:+ actor +:+ "'. " +:+
  "Valid transitions from " +:+ from +:+ " are: " +:+ describeValidFrom from.

Definition CanTransition (from to : OrderStatus) (actor : string) : error :=
  let key := mkKey from to actor in
  if map_get transitionMap key then None
  else Some (invalid_transition_message from to actor).

Definition GetAllTransitions : list Transition := validTransitions.

(** A status is terminal when no triple of the table leaves it. *)
Definition terminal (status : OrderStatus) : Prop :=
  Forall (fun t => From t ≠ status) validTransitions.

End statemachine.

Import statemachine.


(** ** package config: the storage behind [config.DB]

    The tables the handlers touch. [orders] and [menu_items] are keyed by
    primary key; [restaurants] and [histories] are kept in insertion
    order, which is primary-key order, because [First] with a [Where]
    clause and the audit trail depend on it. [order_seq] is the last
    order id handed out. *)

Module config.

Record DB : Type := mkDB {
  orders : gmap nat Order.t;
  order_seq : nat;
  restaurants : list Restaurant.t;
  menu_items : gmap nat MenuItem.t;
  histories : list OrderStatusHistory.t
}.

(** A column assignment of [Update] / [Updates] on the orders table. *)
Inductive column : Type :=
| status_col (s : OrderStatus)
| driver_id_col (d : nat)
| estimated_time_col (n : Z).

Definition set_column (o : Order.t) (c : column) : Order.t :=
  match c with
  | status_col s =>
      Order.mk (Order.ID o) (Order.CustomerID o) (Order.RestaurantID o)
        (Order.DriverID o) s (Order.DeliveryAddress o) (Order.Notes o)
        (Order.EstimatedTime o) (Order.Items o)
  | driver_id_col d =>
      Order.mk (Order.ID o) (Order.CustomerID o) (Order.RestaurantID o)
        (Some d) (Order.Status o) (Order.DeliveryAddress o) (Order.Notes o)
        (Order.EstimatedTime o) (Order.Items o)
  | estimated_time_col n =>
      Order.mk (Order.ID o) (Order.CustomerID o) (Order.RestaurantID o)
        (Order.DriverID o) (Order.Status o) (Order.DeliveryAddress o)
        (Order.Notes o) n (Order.Items o)
  end.

(** The calls the handlers make on [config.DB], each indexed by what it
    hands back to the handler. [None] stands for a non-nil [.Error]. The
    handlers drop the result of [Update], [Updates] and of creating a
    history row, so these return [unit]. *)
Inductive call : Type → Type :=
| FirstOrder (id : nat) : call (option Order.t)
| FirstRestaurant (id : nat) : call (option Restaurant.t)
| FirstRestaurantWhereOwner (owner : nat) : call (option Restaurant.t)
| FirstMenuItem (id : nat) : call (option MenuItem.t)
| CreateOrder (o : Order.t) : call (option Order.t)
| UpdateOrder (id : nat) (cols : list column) : call unit
| CreateHistory (h : OrderStatusHistory.t) : call unit.

Definition with_id (o : Order.t) (id : nat) : Order.t :=
  Order.mk id (Order.CustomerID o) (Order.RestaurantID o) (Order.DriverID o)
    (Order.Status o) (Order.DeliveryAddress o) (Order.Notes o)
    (Order.EstimatedTime o) (Order.Items o).

Definition history_with_id (h : OrderStatusHistory.t) (id : nat) : OrderStatusHistory.t :=
  OrderStatusHistory.mk id (OrderStatusHistory.OrderID h)
    (OrderStatusHistory.FromStatus h) (OrderStatusHistory.ToStatus h)
    (OrderStatusHistory.ChangedBy h) (OrderStatusHistory.Note h).

Definition menu_item_with_id (m : MenuItem.t) (id : nat) : MenuItem.t :=
  MenuItem.mk id (MenuItem.RestaurantID m) (MenuItem.Name m) (MenuItem.IsAvailable m).

(** What one call does to the tables and what it returns. A row found
    under a primary key carries that key as its id column. *)
Definition exec {X : Type} (op : call X) (db : DB) : X * DB :=
  match op in call X return X * DB with
  | FirstOrder id => ((fun o => with_id o id) <$> orders db !! id, db)
  | FirstRestaurant id =>
      (List.find (fun r => bool_decide (Restaurant.ID r = id)) (restaurants db), db)
  | FirstRestaurantWhereOwner owner =>
      (List.find (fun r => bool_decide (Restaurant.OwnerID r = owner)) (restaurants db), db)
  | FirstMenuItem id => ((fun m => menu_item_with_id m id) <$> menu_items db !! id, db)
  | CreateOrder o =>
      let id := S (order_seq db) in
      let row := with_id o id in
      (Some row,
       mkDB (<[id := row]> (orders db)) id (restaurants db) (menu_items db)
            (histories db))
  | UpdateOrder id cols =>
      (tt,
       mkDB (alter (fun o => foldl set_column o cols) id (orders db))
            (order_seq db) (restaurants db) (menu_items db) (histories db))
  | CreateHistory h =>
      (tt,
       mkDB (orders db) (order_seq db) (restaurants db) (menu_items db)
            (histories db ++ [history_with_id h (S (length (histories db)))]))
  end.

(** A handler is a finite tree of storage calls ending in a response. *)
Inductive prog (A : Type) : Type :=
| Ret (a : A)
| Do {X : Type} (op : call X) (k : X → prog A).

Arguments Ret {A} a.
Arguments Do {A X} op k.

(** Running a handler from start to end with no other request in between. *)
Fixpoint run {A : Type} (p : prog A) (db : DB) : A * DB :=
  match p with
  | Ret a => (a, db)
  | Do op k => let r := exec op db in run (k r.1) r.2
  end.

(** One storage call of a handler; a finished handler stays as it is. *)
Definition step {A : Type} (p : prog A) (db : DB) : prog A * DB :=
  match p with
  | Ret a => (Ret a, db)
  | Do op k => let r := exec op db in (k r.1, r.2)
  end.

(** Two requests served at once over the same tables: the schedule says
    whose storage call comes next ([true] for the first request). *)
Fixpoint interleave {A : Type} (sched : list bool) (p q : prog A) (db : DB)
    : prog A * prog A * DB :=
  match sched with
  | [] => (p, q, db)
  | true :: rest => let r := step p db in interleave rest r.1 q r.2
  | false :: rest => let r := step q db in interleave rest p r.1 r.2
  end.

(** [if b { op }] followed by the rest [k] of the handler. *)
Definition when {A : Type} (b : bool) (op : call unit) (k : prog A) : prog A :=
  if b then Do op (fun _ => k) else k.

(** The audit trail of one order, oldest first. *)
Definition History (db : DB) (orderID : nat) : list OrderStatusHistory.t :=
  filter (fun h => OrderStatusHistory.OrderID h = orderID) (histories db).

End config.

Import config.

Notation "'let*' x ':=' op 'in' k" := (Do op (fun x => k))
  (at level 10, x name, op at level 100, k at level 200, only parsing).
Notation "'exec*' op 'in' k" := (Do op (fun _ => k))
  (at level 10, op at level 100, k at level 200, only parsing).
Notation "'when*' b 'then' op 'in' k" := (when b op k)
  (at level 10, b at level 100, op at level 100, k at level 200, only parsing).

(** ** net/http status codes and gin responses *)

Module http.
Definition StatusOK : nat := 200.
Definition StatusCreated : nat := 201.
Definition StatusBadRequest : nat := 400.
Definition StatusForbidden : nat := 403.
Definition StatusNotFound : nat := 404.
Definition StatusConflict : nat := 409.
Definition StatusUnprocessableEntity : nat := 422.
Definition StatusInternalServerError : nat := 500.
End http.

Module gin.

(** The values the handlers put in a [gin.H]. *)
Inductive value : Type :=
| Str (s : string)
| Num (n : nat)
| Int (z : Z)
| Strs (l : list string)
| OrderJSON (o : Order.t)
| BindError.                 (* [err.Error()] of a failed [ShouldBindJSON] *)

(** [gin.H], a JSON object, as the key/value pairs of the literal. *)
Definition H : Type := list (string * value).

Fixpoint get (h : H) (key : string) : option value :=
  match h with
  | [] => None
  | (k, v) :: rest => if bool_decide (k = key) then Some v else get rest key
  end.

(** [c.JSON(code, body)] *)
Record Response : Type := JSON {
  code : nat;
  body : H
}.

(** What a handler reads from its [*gin.Context]: the user id that
    [AuthRequired] stored from the token, the numeric [:id] route
    parameter and the decoded JSON body, if it decodes. *)
Record Context (B : Type) : Type := mkContext {
  userID : nat;
  Param_id : nat;
  json : option B
}.
Arguments userID {B} c.
Arguments Param_id {B} c.
Arguments json {B} c.

(** [c.ShouldBindJSON(&req)]: decoding, then the [binding] tags, given
    here as the check [valid]. [None] is a non-nil error. *)
Definition ShouldBindJSON {B : Type} (valid : B → bool) (c : Context B) : option B :=
  match json c with
  | Some req => if valid req then Some req else None
  | None => None
  end.

End gin.

Module middleware.
Definition GetUserID {B : Type} (c : gin.Context B) : nat := gin.userID c.
End middleware.

(** ** package handlers *)

Module handlers.

Import gin.

(** [string(rune(n))] for an unsigned [n]: the UTF-8 text of the code
    point, and of U+FFFD when [n], cut to 32 bits, is no valid code
    point. *)
Definition byte_string (l : list N) : string :=
  foldr (fun b s => String (Ascii.ascii_of_N b) s) EmptyString l.

Definition string_of_rune (n : nat) : string :=
  let r := (N.of_nat n mod 4294967296)%N in
  if decide (r < 128)%N then byte_string [r]
  else if decide (r < 2048)%N then
    byte_string [192 + r / 64; 128 + r mod 64]%N
  else if decide (55296 ≤ r ∧ r < 57344)%N then byte_string [239; 191; 189]%N
  else if decide (r < 65536)%N then
    byte_string [224 + r / 4096; 128 + (r / 64) mod 64; 128 + r mod 64]%N
  else if decide (r < 1114112)%N then
    byte_string [240 + r / 262144; 128 + (r / 4096) mod 64;
                 128 + (r / 64) mod 64; 128 + r mod 64]%N
  else byte_string [239; 191; 189]%N.

Record PlaceOrderItem : Type := mkPlaceOrderItem {
  item_MenuItemID : nat;
  item_Quantity : Z
}.

Record PlaceOrderRequest : Type := mkPlaceOrderRequest {
  req_RestaurantID : nat;
  req_DeliveryAddress : string;
  req_Notes : string;
  req_Items : list PlaceOrderItem
}.

(** The [binding] tags of [PlaceOrderRequest]: [required] on the
    restaurant id and the address, [required,min=1] on the items. The
    tags on the fields of an item are left out: they can only turn a
    request that would be served into a 400. *)
Definition PlaceOrderRequest_valid (req : PlaceOrderRequest) : bool :=
  negb (bool_decide (req_RestaurantID req = 0)) &&
  negb (bool_decide (req_DeliveryAddress req = "")) &&
  bool_decide (1 ≤ length (req_Items req)).

(** The loop over [req.Items] of [PlaceOrder]: [orderItems] is the slice
    built so far, [k] is the rest of the handler after the loop. *)
Fixpoint PlaceOrder_items (restaurantID : nat) (items : list PlaceOrderItem)
    (orderItems : list OrderItem.t) (k : list OrderItem.t → prog Response)
    : prog Response :=
  match items with
  | [] => k orderItems
  | reqItem :: rest =>
      let* found := FirstMenuItem (item_MenuItemID reqItem) in
      match found with
      | None =>
          Ret (JSON http.StatusBadRequest
                 [("error", Str ("Menu item not found: " +:+
                                 string_of_rune (item_MenuItemID reqItem)))])
      | Some menuItem =>
          if negb (bool_decide (MenuItem.RestaurantID menuItem = restaurantID)) then
            Ret (JSON http.StatusBadRequest
                   [("error", Str "Menu item does not belong to this restaurant")])
          else if negb (MenuItem.IsAvailable menuItem) then
            Ret (JSON http.StatusBadRequest
                   [("error", Str ("Menu item '" +:+ MenuItem.Name menuItem +:+
                                   "' is not available"))])
          else
            PlaceOrder_items restaurantID rest
              (orderItems ++
               [OrderItem.mk (MenuItem.ID menuItem) (item_Quantity reqItem)
                  (MenuItem.Name menuItem)])
              k
      end
  end.

Definition PlaceOrder (c : Context PlaceOrderRequest) : prog Response :=
  let customerID := middleware.GetUserID c in
  match ShouldBindJSON PlaceOrderRequest_valid c with
  | None => Ret (JSON http.StatusBadRequest [("error", BindError)])
  | Some req =>
      let* found := FirstRestaurant (req_RestaurantID req) in
      match found with
      | None => Ret (JSON http.StatusNotFound [("error", Str "Restaurant not found")])
      | Some restaurant =>
          if negb (Restaurant.IsOpen restaurant) then
            Ret (JSON http.StatusBadRequest
                   [("error", Str "Restaurant is currently closed")])
          else
            PlaceOrder_items (req_RestaurantID req) (req_Items req) []
              (fun orderItems =>
                 let estimatedTime := (30 + 5 * Z.of_nat (length (req_Items req)))%Z in
                 let order :=
                   Order.mk 0 customerID (req_RestaurantID req) None StatusPlaced
                     (req_DeliveryAddress req) (req_Notes req) estimatedTime
                     orderItems in
                 let* created := CreateOrder order in
                 match created with
                 | None =>
                     Ret (JSON http.StatusInternalServerError
                            [("error", Str "Failed to place order")])
                 | Some order =>
                     let history :=
                       OrderStatusHistory.mk 0 (Order.ID order) "" StatusPlaced
                         customerID "Order placed by customer" in
                     exec* CreateHistory history in
                     let* reread := FirstOrder (Order.ID order) in
                     let order := default order reread in
                     Ret (JSON http.StatusCreated
                            [("message", Str "Order placed successfully");
                             ("order", OrderJSON order);
                             ("estimated_time", Int estimatedTime)])
                 end)
      end
  end.

(** [CancelOrder] reads no body. *)
Definition CancelOrder {B : Type} (c : Context B) : prog Response :=
  let customerID := middleware.GetUserID c in
  let orderID := Param_id c in
  let* found := FirstOrder orderID in
  match found with
  | None => Ret (JSON http.StatusNotFound [("error", Str "Order not found")])
  | Some order =>
      if negb (bool_decide (Order.CustomerID order = customerID)) then
        Ret (JSON http.StatusForbidden
               [("error", Str "This order does not belong to you")])
      else
        match CanTransition (Order.Status order) StatusCancelled "customer" with
        | Some err =>
            Ret (JSON http.StatusUnprocessableEntity
                   [("error", Str "Cannot cancel order");
                    ("reason", Str err);
                    ("current_state", Str (Order.Status order))])
        | None =>
            let prevStatus := Order.Status order in
            exec* UpdateOrder (Order.ID order) [status_col StatusCancelled] in
            let history :=
              OrderStatusHistory.mk 0 (Order.ID order) prevStatus StatusCancelled
                customerID "Order cancelled by customer" in
            exec* CreateHistory history in
            Ret (JSON http.StatusOK
                   [("message", Str "Order cancelled successfully");
                    ("order_id", Num (Order.ID order))])
        end
  end.

Record UpdateOrderStatusRequest : Type := mkUpdateOrderStatusRequest {
  upd_Status : OrderStatus;
  upd_Note : string
}.

(** [binding:"required"] on [Status]. *)
Definition UpdateOrderStatusRequest_valid (req : UpdateOrderStatusRequest) : bool :=
  negb (bool_decide (upd_Status req = "")).

Definition UpdateOrderStatus (c : Context UpdateOrderStatusRequest) : prog Response :=
  let ownerID := middleware.GetUserID c in
  let orderID := Param_id c in
  let* found_restaurant := FirstRestaurantWhereOwner ownerID in
  match found_restaurant with
  | None =>
      Ret (JSON http.StatusNotFound
             [("error", Str "No restaurant found for your account")])
  | Some restaurant =>
      let* found := FirstOrder orderID in
      match found with
      | None => Ret (JSON http.StatusNotFound [("error", Str "Order not found")])
      | Some order =>
          if negb (bool_decide (Order.RestaurantID order = Restaurant.ID restaurant)) then
            Ret (JSON http.StatusForbidden
                   [("error", Str "This order does not belong to your restaurant")])
          else
            match ShouldBindJSON UpdateOrderStatusRequest_valid c with
            | None => Ret (JSON http.StatusBadRequest [("error", BindError)])
            | Some req =>
                match CanTransition (Order.Status order) (upd_Status req) "restaurant" with
                | Some err =>
                    Ret (JSON http.StatusUnprocessableEntity
                           [("error", Str "Invalid state transition");
                            ("current_status", Str (Order.Status order));
                            ("requested", Str (upd_Status req));
                            ("reason", Str err);
                            ("valid_next_states",
                             Strs (ValidTransitionsFrom (Order.Status order)))])
                | None =>
                    let prevStatus := Order.Status order in
                    exec* UpdateOrder (Order.ID order) [status_col (upd_Status req)] in
                    when* bool_decide (upd_Status req = StatusPreparing)
                    then UpdateOrder (Order.ID order) [estimated_time_col 20] in
                    let history :=
                      OrderStatusHistory.mk 0 (Order.ID order) prevStatus
                        (upd_Status req) ownerID (upd_Note req) in
                    exec* CreateHistory history in
                    Ret (JSON http.StatusOK
                           [("message", Str "Order status updated");
                            ("order_id", Num (Order.ID order));
                            ("previous_status", Str prevStatus);
                            ("current_status", Str (upd_Status req))])
                end
            end
      end
  end.

(** [PickupOrder] and [DeliverOrder] read no body. *)
Definition PickupOrder {B : Type} (c : Context B) : prog Response :=
  let driverID := middleware.GetUserID c in
  let orderID := Param_id c in
  let* found := FirstOrder orderID in
  match found with
  | None => Ret (JSON http.StatusNotFound [("error", Str "Order not found")])
  | Some order =>
      if bool_decide (Order.DriverID order ≠ None) then
        Ret (JSON http.StatusConflict
               [("error", Str "Order has already been picked up by another driver")])
      else
        match CanTransition (Order.Status order) StatusPickedUp "driver" with
        | Some err =>
            Ret (JSON http.StatusUnprocessableEntity
                   [("error", Str "Invalid state transition");
                    ("current_status", Str (Order.Status order));
                    ("reason", Str err);
                    ("valid_next_states",
                     Strs (ValidTransitionsFrom (Order.Status order)))])
        | None =>
            let prevStatus := Order.Status order in
            exec* UpdateOrder (Order.ID order)
                    [status_col StatusPickedUp; driver_id_col driverID] in
            let history :=
              OrderStatusHistory.mk 0 (Order.ID order) prevStatus StatusPickedUp
                driverID "Driver picked up the order" in
            exec* CreateHistory history in
            Ret (JSON http.StatusOK
                   [("message", Str "Order picked up successfully");
                    ("order_id", Num (Order.ID order));
                    ("status", Str StatusPickedUp)])
        end
  end.

Definition DeliverOrder {B : Type} (c : Context B) : prog Response :=
  let driverID := middleware.GetUserID c in
  let orderID := Param_id c in
  let* found := FirstOrder orderID in
  match found with
  | None => Ret (JSON http.StatusNotFound [("error", Str "Order not found")])
  | Some order =>
      if bool_decide (Order.DriverID order = None) ||
         negb (bool_decide (Order.DriverID order = Some driverID)) then
        Ret (JSON http.StatusForbidden
               [("error", Str "You are not the assigned driver for this order")])
      else
        match CanTransition (Order.Status order) StatusDelivered "driver" with
        | Some err =>
            Ret (JSON http.StatusUnprocessableEntity
                   [("error", Str "Invalid state transition");
                    ("current_status", Str (Order.Status order));
                    ("reason", Str err)])
        | None =>
            let prevStatus := Order.Status order in
            exec* UpdateOrder (Order.ID order) [status_col StatusDelivered] in
            let history :=
              OrderStatusHistory.mk 0 (Order.ID order) prevStatus StatusDelivered
                driverID "Order delivered to customer" in
            exec* CreateHistory history in
            Ret (JSON http.StatusOK
                   [("message", Str "Order delivered successfully! 🎉");
                    ("order_id", Num (Order.ID order));
                    ("status", Str StatusDelivered)])
        end
  end.

(** The anonymous request struct of [AdminForceOrderStatus]. *)
Record AdminForceRequest : Type := mkAdminForceRequest {
  force_Status : OrderStatus;
  force_Reason : string
}.

(** [binding:"required"] on [Status]. *)
Definition AdminForceRequest_valid (req : AdminForceRequest) : bool :=
  negb (bool_decide (force_Status req = "")).

Definition AdminForceOrderStatus (c : Context AdminForceRequest) : prog Response :=
  let orderID := Param_id c in
  match ShouldBindJSON AdminForceRequest_valid c with
  | None => Ret (JSON http.StatusBadRequest [("error", BindError)])
  | Some req =>
      let* found := FirstOrder orderID in
      match found with
      | None => Ret (JSON http.StatusNotFound [("error", Str "Order not found")])
      | Some order =>
          let prevStatus := Order.Status order in
          exec* UpdateOrder (Order.ID order) [status_col (force_Status req)] in
          let history :=
            OrderStatusHistory.mk 0 (Order.ID order) prevStatus (force_Status req)
              0 ("[ADMIN OVERRIDE] " +:+ force_Reason req) in
          exec* CreateHistory history in
          Ret (JSON http.StatusOK
                 [("message", Str "Order status force-updated by admin");
                  ("order_id", Num (Order.ID order));
                  ("previous_status", Str prevStatus);
                  ("new_status", Str (force_Status req))])
      end
  end.

End handlers.

Import gin handlers.

(** ** The transition operations, taken together

    The six handlers that change an order's status, each with the
    context it is called with, so that a statement can range over all
    of them. *)

Inductive operation : Type :=
| place_order (c : Context PlaceOrderRequest)
| update_order_status (c : Context UpdateOrderStatusRequest)
| cancel_order (c : Context unit)
| pickup_order (c : Context unit)
| deliver_order (c : Context unit)
| admin_force_order_status (c : Context AdminForceRequest).

Definition handler (op : operation) : prog Response :=
  match op with
  | place_order c => PlaceOrder c
  | update_order_status c => UpdateOrderStatus c
  | cancel_order c => CancelOrder c
  | pickup_order c => PickupOrder c
  | deliver_order c => DeliverOrder c
  | admin_force_order_status c => AdminForceOrderStatus c
  end.

(** The authenticated user who sent the request. *)
Definition caller (op : operation) : nat :=
  match op with
  | place_order c => userID c
  | update_order_status c => userID c
  | cancel_order c => userID c
  | pickup_order c => userID c
  | deliver_order c => userID c
  | admin_force_order_status c => userID c
  end.

(** The order named by the route, for the operations on an existing order. *)
Definition target (op : operation) : option nat :=
  match op with
  | place_order _ => None
  | update_order_status c => Some (Param_id c)
  | cancel_order c => Some (Param_id c)
  | pickup_order c => Some (Param_id c)
  | deliver_order c => Some (Param_id c)
  | admin_force_order_status c => Some (Param_id c)
  end.

Definition is_override (op : operation) : bool :=
  match op with
  | admin_force_order_status _ => true
  | _ => false
  end.

(** How a response reads to the caller: by its HTTP status. *)
Inductive outcome : Type :=
| Success
| BadRequest
| Forbidden
| NotFound
| Conflict
| InvalidTransition
| Failure.

Definition outcome_of (r : Response) : outcome :=
  if bool_decide (code r = http.StatusOK) then Success
  else if bool_decide (code r = http.StatusCreated) then Success
  else if bool_decide (code r = http.StatusBadRequest) then BadRequest
  else if bool_decide (code r = http.StatusForbidden) then Forbidden
  else if bool_decide (code r = http.StatusNotFound) then NotFound
  else if bool_decide (code r = http.StatusConflict) then Conflict
  else if bool_decide (code r = http.StatusUnprocessableEntity) then InvalidTransition
  else Failure.

(** The checks a handler makes between finding the order [o] and asking
    the state machine: the restaurant update wants the caller's
    restaurant to own the order and a body that binds, the cancel wants
    the caller to be the order's customer, the pickup wants no driver on
    the order, the delivery wants the caller to be the order's driver.
    Placing an order and the admin override never ask the state
    machine. *)
Definition reaches_validator (op : operation) (db : DB) (o : Order.t) : Prop :=
  match op with
  | place_order _ => False
  | update_order_status c =>
      ∃ r req,
        (exec (FirstRestaurantWhereOwner (userID c)) db).1 = Some r ∧
        Order.RestaurantID o = Restaurant.ID r ∧
        ShouldBindJSON UpdateOrderStatusRequest_valid c = Some req
  | cancel_order c => Order.CustomerID o = userID c
  | pickup_order c => Order.DriverID o = None
  | deliver_order c => Order.DriverID o = Some (userID c)
  | admin_force_order_status _ => False
  end.

(** The last entry of an order's audit trail. *)
Definition latest (db : DB) (orderID : nat) : option OrderStatusHistory.t :=
  last (History db orderID).

(** The stores that requests served one at a time can produce, starting
    with no orders. Besides the six operations above only the catalog
    handlers write to storage, and they write restaurants and menu items
    alone. *)
Inductive reachable : DB → Prop :=
| reachable_start rs ms : reachable (mkDB ∅ 0 rs ms [])
| reachable_operation db op :
    reachable db → reachable (run (handler op) db).2
| reachable_catalog db rs ms :
    reachable db →
    reachable (mkDB (orders db) (order_seq db) rs ms (histories db)).

(** Every order has a history, and the latest row of it ends in the
    order's status; order ids, in both tables, are ids that were handed
    out. *)
Definition consistent (db : DB) : Prop :=
  (∀ id o, orders db !! id = Some o →
           id ≤ order_seq db ∧
           ∃ h, latest db id = Some h ∧
                OrderStatusHistory.ToStatus h = Order.Status o) ∧
  (∀ h, h ∈ histories db → OrderStatusHistory.OrderID h ≤ order_seq db).

(** A denial body names the order's current status under one of the two
    keys the handlers use for it. *)
Definition carries_current_status (b : H) (s : OrderStatus) : Prop :=
  get b "current_status" = Some (Str s) ∨ get b "current_state" = Some (Str s).

(** A denial body holds the list of legal next statuses as a value of
    its own. *)
Definition carries_next_statuses (b : H) (s : OrderStatus) : Prop :=
  ∃ key, get b key = Some (Strs (ValidTransitionsFrom s)).

(** The history rows of the pickup of one order. *)
Definition pickup_records (db : DB) (orderID : nat) : list OrderStatusHistory.t :=
  filter (fun h => OrderStatusHistory.ToStatus h = StatusPickedUp) (History db orderID).

(** ** Sample data

    One restaurant (id 1, owner 2), one customer (user 3), two drivers
    (users 7 and 8), one administrator (user 9), and order 1 at
    different points of its life. The estimated time is 35 minutes for
    the one item ordered and 20 from the moment the kitchen starts. *)

Definition sample_order (status : OrderStatus) (driver : option nat)
    (minutes : Z) : Order.t :=
  Order.mk 1 3 1 driver status "12 Hill Road" "" minutes
    [OrderItem.mk 1 2 "Masala Dosa"].

Definition sample_db (status : OrderStatus) (driver : option nat)
    (minutes : Z) (trail : list OrderStatusHistory.t) : DB :=
  mkDB {[1 := sample_order status driver minutes]} 1
       [Restaurant.mk 1 2 "Udupi Cafe" true]
       {[1 := MenuItem.mk 1 1 "Masala Dosa" true]}
       trail.

Definition trail_placed : list OrderStatusHistory.t :=
  [OrderStatusHistory.mk 1 1 "" StatusPlaced 3 "Order placed by customer"].

Definition trail_preparing : list OrderStatusHistory.t :=
  trail_placed ++
  [OrderStatusHistory.mk 2 1 StatusPlaced StatusConfirmed 2 "Order received!";
   OrderStatusHistory.mk 3 1 StatusConfirmed StatusPreparing 2 ""].

Definition trail_ready : list OrderStatusHistory.t :=
  trail_preparing ++
  [OrderStatusHistory.mk 4 1 StatusPreparing StatusReadyForPickup 2
     "Food is packed!"].

Definition trail_picked_up : list OrderStatusHistory.t :=
  trail_ready ++
  [OrderStatusHistory.mk 5 1 StatusReadyForPickup StatusPickedUp 7
     "Driver picked up the order"].

Definition trail_delivered : list OrderStatusHistory.t :=
  trail_picked_up ++
  [OrderStatusHistory.mk 6 1 StatusPickedUp StatusDelivered 7
     "Order delivered to customer"].

Definition db_empty : DB := mkDB ∅ 0 [Restaurant.mk 1 2 "Udupi Cafe" true]
  {[1 := MenuItem.mk 1 1 "Masala Dosa" true]} [].
Definition db_placed : DB := sample_db StatusPlaced None 35 trail_placed.
Definition db_preparing : DB := sample_db StatusPreparing None 20 trail_preparing.
Definition db_ready : DB := sample_db StatusReadyForPickup None 20 trail_ready.
Definition db_picked_up : DB := sample_db StatusPickedUp (Some 7) 20 trail_picked_up.
Definition db_delivered : DB := sample_db StatusDelivered (Some 7) 20 trail_delivered.

(** A request on order 1 by the given user, with the given body. *)
Definition on_order_1 {B : Type} (user : nat) (b : option B) : Context B :=
  mkContext B user 1 b.

(** The requests that take order 1 through its life: the customer
    (user 3) orders two dosas from restaurant 1, the owner (user 2)
    confirms, starts cooking and packs, driver 7 picks up and delivers. *)
Definition place_two_dosas : operation :=
  place_order
    (mkContext PlaceOrderRequest 3 0
       (Some (mkPlaceOrderRequest 1 "12 Hill Road" "" [mkPlaceOrderItem 1 2]))).

Definition confirm_order_1 : operation :=
  update_order_status
    (on_order_1 2 (Some (mkUpdateOrderStatusRequest StatusConfirmed "Order received!"))).

Definition prepare_order_1 : operation :=
  update_order_status
    (on_order_1 2 (Some (mkUpdateOrderStatusRequest StatusPreparing ""))).

Definition pack_order_1 : operation :=
  update_order_status
    (on_order_1 2 (Some (mkUpdateOrderStatusRequest StatusReadyForPickup "Food is packed!"))).

Definition pickup_order_1 : operation := pickup_order (on_order_1 7 None).

Definition deliver_order_1 : operation := deliver_order (on_order_1 7 None).

(** Serving a list of requests one after the other. *)
Definition serve_all (ops : list operation) (db : DB) : DB :=
  foldl (fun db op => (run (handler op) db).2) db ops.

(** Drivers 7 and 8 ask for order 1 at the same time. Each handler makes
    three storage calls: it reads the order, writes status and driver,
    and adds the history row. In [both_read_first] the two reads come
    before the two writes; in [one_after_the_other] driver 7 is served to
    the end before driver 8 starts. *)
Definition both_read_first : list bool := [true; false; true; false; true; false].
Definition one_after_the_other : list bool := [true; true; true; false; false; false].

(** ** Walks through the table *)

(** Some actor may move an order from [from] to [to]. *)
Definition may_move (from to : OrderStatus) : Prop :=
  ∃ actor, CanTransition from to actor = None.

(** A list of statuses in which each one follows the one before it by a
    move of the table. *)
Fixpoint legal_walk (l : list OrderStatus) : Prop :=
  match l with
  | [] => True
  | from :: rest =>
      match rest with
      | [] => True
      | to :: _ => may_move from to ∧ legal_walk rest
      end
  end.

(** How far along the workflow a status is; the statuses that nothing
    leaves, and the strings that are no status, come last. *)
Definition rank (s : OrderStatus) : nat :=
  if decide (s = StatusPlaced) then 0
  else if decide (s = StatusConfirmed) then 1
  else if decide (s = StatusPreparing) then 2
  else if decide (s = StatusReadyForPickup) then 3
  else if decide (s = StatusPickedUp) then 4
  else 5.

(** ** The audit trail as a walk *)

(** A history row written by the admin override starts its note with
    this tag. *)
Definition override_tag : string := "[ADMIN OVERRIDE] ".

(** A row records a move of the table, or carries the override tag. *)
Definition row_legal (h : OrderStatusHistory.t) : Prop :=
  may_move (OrderStatusHistory.FromStatus h) (OrderStatusHistory.ToStatus h) ∨
  String.prefix override_tag (OrderStatusHistory.Note h) = true.

(** Rows that continue from the status [prev], each from where the one
    before it ended. *)
Fixpoint chained (prev : OrderStatus) (l : list OrderStatusHistory.t) : Prop :=
  match l with
  | [] => True
  | h :: rest =>
      OrderStatusHistory.FromStatus h = prev ∧ row_legal h ∧
      chained (OrderStatusHistory.ToStatus h) rest
  end.

(** A whole trail: the first row is the placing of the order, with no
    from-status, and the rest continue from PLACED. *)
Definition trail_ok (l : list OrderStatusHistory.t) : Prop :=
  match l with
  | [] => True
  | h :: rest =>
      OrderStatusHistory.FromStatus h = "" ∧
      OrderStatusHistory.ToStatus h = StatusPlaced ∧
      chained StatusPlaced rest
  end.

(** The stores that the workflow alone produces: as [reachable], without
    the admin override. *)
Inductive reachable_by_workflow : DB → Prop :=
| workflow_start rs ms : reachable_by_workflow (mkDB ∅ 0 rs ms [])
| workflow_operation db op :
    is_override op = false →
    reachable_by_workflow db →
    reachable_by_workflow (run (handler op) db).2
| workflow_catalog db rs ms :
    reachable_by_workflow db →
    reachable_by_workflow (mkDB (orders db) (order_seq db) rs ms (histories db)).

(** ** What stays of an order

    [o'] is a later state of the order [o]: the columns that identify
    the order and say what was ordered are the same, and a driver, once
    there, is the same driver. *)
Definition kept (o o' : Order.t) : Prop :=
  Order.ID o' = Order.ID o ∧
  Order.CustomerID o' = Order.CustomerID o ∧
  Order.RestaurantID o' = Order.RestaurantID o ∧
  Order.DeliveryAddress o' = Order.DeliveryAddress o ∧
  Order.Notes o' = Order.Notes o ∧
  Order.Items o' = Order.Items o ∧
  (∀ d, Order.DriverID o = Some d → Order.DriverID o' = Some d).

(** An order as the workflow leaves it: its status is one of the seven,
    and it has a driver exactly from the pickup on. *)
Definition collected (o : Order.t) : Prop :=
  Order.Status o = StatusPickedUp ∨ Order.Status o = StatusDelivered.

Definition workflow_shape (o : Order.t) : Prop :=
  Order.Status o ∈ all_statuses ∧ (is_Some (Order.DriverID o) ↔ collected o).

(** ** One round of the item loop of [PlaceOrder]

    The order item built for a requested item: the menu item must exist,
    belong to the restaurant and be available; the item keeps the menu
    item's id and name and the requested quantity. [None] is the round
    that answers 400. *)
Definition item_snapshot (db : DB) (restaurantID : nat) (reqItem : PlaceOrderItem)
    : option OrderItem.t :=
  match (exec (FirstMenuItem (item_MenuItemID reqItem)) db).1 with
  | None => None
  | Some menuItem =>
      if negb (bool_decide (MenuItem.RestaurantID menuItem = restaurantID)) then None
      else if negb (MenuItem.IsAvailable menuItem) then None
      else Some (OrderItem.mk (MenuItem.ID menuItem) (item_Quantity reqItem)
                   (MenuItem.Name menuItem))
  end.

(** ** The listings of [handlers/driver.go] and [handlers/customer.go]

    Each makes one [Find] and answers 200 with the rows and their number.
    The rows are given as the set of rows found, keyed by order id: the
    order in which the answer lists them follows the time stamps, which
    are not embedded. *)

Record listing : Type := Listing {
  listing_count : nat;
  listing_orders : gmap nat Order.t
}.

(** [config.DB.Where(...).Find(&orders)] for a condition on the columns. *)
Definition FindOrders (P : Order.t → Prop) `{∀ o, Decision (P o)} (db : DB)
    : gmap nat Order.t :=
  filter (fun kv => P kv.2) (orders db).

Definition GetAvailableOrders (db : DB) : listing :=
  let orders :=
    FindOrders (fun o => Order.Status o = StatusReadyForPickup ∧
                         Order.DriverID o = None) db in
  Listing (size orders) orders.

Definition GetMyDeliveries {B : Type} (c : Context B) (db : DB) : listing :=
  let driverID := middleware.GetUserID c in
  let orders := FindOrders (fun o => Order.DriverID o = Some driverID) db in
  Listing (size orders) orders.

Definition GetMyOrders {B : Type} (c : Context B) (db : DB) : listing :=
  let customerID := middleware.GetUserID c in
  let orders := FindOrders (fun o => Order.CustomerID o = customerID) db in
  Listing (size orders) orders.

(** ** The dashboard summary

    The loop [summary[string(o.Status)]++] of [GetRestaurantOrders] and
    of [AdminGetAllOrders], over the rows found. Reading a missing key
    of the Go map gives 0. A count is a Go [int] that never exceeds the
    number of rows, itself an [int], so it is given without wrap-around. *)

Definition summary_get (summary : gmap string Z) (k : string) : Z :=
  default 0%Z (summary !! k).

Definition order_summary (orders : list Order.t) : gmap string Z :=
  foldl (fun summary o =>
           <[Order.Status o := (summary_get summary (Order.Status o) + 1)%Z]> summary)
        ∅ orders.

(** The sum of the numbers in a summary. *)
Definition summary_total (summary : gmap string Z) : Z :=
  map_fold (fun _ n acc => (n + acc)%Z) 0%Z summary.

(** ** package middleware: the role check *)

Module roles.

(** [type UserRole string] and its constants, from [models/user.go]. *)
Definition UserRole : Type := string.
Definition RoleCustomer : UserRole := "customer".
Definition RoleRestaurant : UserRole := "restaurant".
Definition RoleDriver : UserRole := "driver".
Definition RoleAdmin : UserRole := "admin".

(** The loop of [rolesString]. *)
Fixpoint rolesString_loop (i : nat) (roles : list UserRole) (s : string) : string :=
  match roles with
  | [] => s
  | r :: rest =>
      rolesString_loop (S i) rest
        ((if decide (0 < i) then s +:+ ", " else s) +:+ r)
  end.

Definition rolesString (roles : list UserRole) : string :=
  rolesString_loop 0 roles "".

(** The loop [for _, r := range roles] of [RoleRequired]: [true] when it
    calls [c.Next()] and returns. *)
Fixpoint role_allowed (callerRole : UserRole) (roles : list UserRole) : bool :=
  match roles with
  | [] => false
  | r :: rest => if bool_decide (callerRole = r) then true else role_allowed callerRole rest
  end.

(** [RoleRequired(roles...)] applied to a request whose context holds
    the role [role], if [AuthRequired] stored one. [None] is [c.Next()]:
    the request goes on to its handler; [Some r] is the answer sent with
    [c.Abort()]. *)
Definition RoleRequired (roles : list UserRole) (role : option string)
    : option Response :=
  match role with
  | None =>
      Some (JSON http.StatusForbidden [("error", Str "Role not found in context")])
  | Some roleVal =>
      if role_allowed roleVal roles then None
      else Some (JSON http.StatusForbidden
                   [("error", Str ("Access denied. Required role(s): " +:+
                                   rolesString roles))])
  end.

End roles.

Import roles.

(** ** The checks before the writes

    What each handler asks for between receiving the request and its
    first write: [PlaceOrder] wants a body that binds, the restaurant
    found and open, and an item built in every round of its loop; the
    four workflow handlers want the order found, their own check passed
    ([reaches_validator]) and the move allowed by [CanTransition] for
    their actor; the admin override wants a body that binds and the
    order found. *)
Definition passes_checks (op : operation) (db : DB) : Prop :=
  match op with
  | place_order c =>
      ∃ req r built,
        ShouldBindJSON PlaceOrderRequest_valid c = Some req ∧
        (exec (FirstRestaurant (req_RestaurantID req)) db).1 = Some r ∧
        Restaurant.IsOpen r = true ∧
        mapM (item_snapshot db (req_RestaurantID req)) (req_Items req) = Some built
  | update_order_status c =>
      ∃ o req,
        orders db !! Param_id c = Some o ∧
        reaches_validator op db o ∧
        ShouldBindJSON UpdateOrderStatusRequest_valid c = Some req ∧
        CanTransition (Order.Status o) (upd_Status req) "restaurant" = None
  | cancel_order c =>
      ∃ o,
        orders db !! Param_id c = Some o ∧
        reaches_validator op db o ∧
        CanTransition (Order.Status o) StatusCancelled "customer" = None
  | pickup_order c =>
      ∃ o,
        orders db !! Param_id c = Some o ∧
        reaches_validator op db o ∧
        CanTransition (Order.Status o) StatusPickedUp "driver" = None
  | deliver_order c =>
      ∃ o,
        orders db !! Param_id c = Some o ∧
        reaches_validator op db o ∧
        CanTransition (Order.Status o) StatusDelivered "driver" = None
  | admin_force_order_status c =>
      ∃ o req,
        orders db !! Param_id c = Some o ∧
        ShouldBindJSON AdminForceRequest_valid c = Some req
  end.

(** ** A cancel during a confirm

    The customer of order 1 (user 3) cancels it while the owner of its
    restaurant (user 2) confirms it. The cancel makes three storage
    calls (read the order, write the status, add the history row), the
    confirm four (read the restaurant, read the order, write the
    status, add the history row). In [cancel_inside_confirm] both read
    the order before either writes, the confirm writes its status
    first and its history row last. *)
Definition cancel_order_1 : operation := cancel_order (on_order_1 3 None).

Definition cancel_inside_confirm : list bool :=
  [true; false; false; false; true; true; false].

(** * The transition table and its validator *)

Section TransitionTable.

Implicit Types (t : Transition) (k : transitionKey) (s x : OrderStatus).

Lemma build_map_fold ts : ∀ (m : gmap transitionKey bool) k,
  map_get (foldl (fun m t => <[key_of t := true]> m) m ts) k = true ↔
  map_get m k = true ∨ ∃ t, t ∈ ts ∧ key_of t = k.
Proof.
  induction ts as [|t ts IH]; intros m k; simpl.
  - split; [auto | intros [H | (t & Ht & _)]; [done | by apply elem_of_nil in Ht]].
  - rewrite IH. unfold map_get.
    destruct (decide (key_of t = k)) as [<- | Hne].
    + rewrite lookup_insert_eq. simpl. split; [| auto].
      intros _. right. exists t. split; [left | done].
    + rewrite lookup_insert_ne by done. split.
      * intros [H | (t' & Ht' & Hk)]; [auto |].
        right. exists t'. split; [by right | done].
      * intros [H | (t' & Ht' & Hk)]; [auto |].
        apply elem_of_cons in Ht' as [-> | Ht']; [done |].
        right. by exists t'.
Qed.

Lemma transitionMap_spec from to actor :
  map_get transitionMap (mkKey from to actor) = true ↔
  mkTransition from to actor ∈ validTransitions.
Proof.
  unfold transitionMap, build_map. rewrite (build_map_fold validTransitions ∅).
  unfold map_get at 1. rewrite lookup_empty. simpl. split.
  - intros [H | ([f t a] & Ht & Hk)]; [done |].
    unfold key_of in Hk. simpl in Hk. by inversion Hk; subst.
  - intros H. right. by exists (mkTransition from to actor).
Qed.

Lemma vtf_step_spec status acc t :
  vtf_inv acc →
  vtf_inv (vtf_step status acc t) ∧
  ∀ x, x ∈ (vtf_step status acc t).1 ↔
       x ∈ acc.1 ∨ (From t = status ∧ To t = x).
Proof.
  destruct acc as [nexts seen]. unfold vtf_inv, vtf_step. simpl.
  intros [Hseen Hnd].
  destruct (bool_decide_reflect (From t = status)) as [Hf | Hf]; simpl.
  - destruct (seen_get seen (To t)) eqn:Hs; simpl.
    + split; [done |]. intros x. split; [auto |].
      intros [H | [_ <-]]; [done | by apply Hseen].
    + assert (To t ∉ nexts) as Hni by (rewrite <- Hseen; congruence).
      split; [split |].
      * intros x. unfold seen_get. rewrite elem_of_app, list_elem_of_singleton.
        destruct (decide (To t = x)) as [<- | Hne].
        -- rewrite lookup_insert_eq. simpl. split; auto.
        -- rewrite lookup_insert_ne by done. fold (seen_get seen x).
           rewrite Hseen. split; [auto | intros [H | H]; [done | congruence]].
      * apply NoDup_app. split; [done |]. split; [| apply NoDup_singleton].
        intros x Hx Hx'. apply list_elem_of_singleton in Hx'. by subst.
      * intros x. rewrite elem_of_app, list_elem_of_singleton.
        split; intros [H | H]; auto.
        right. by destruct H.
  - split; [done |]. intros x. split; [auto | intros [H | [H _]]; done].
Qed.

Lemma vtf_fold_spec status l : ∀ acc,
  vtf_inv acc →
  vtf_inv (foldl (vtf_step status) acc l) ∧
  ∀ x, x ∈ (foldl (vtf_step status) acc l).1 ↔
       x ∈ acc.1 ∨ ∃ t, t ∈ l ∧ From t = status ∧ To t = x.
Proof.
  induction l as [|t l IH]; intros acc Hinv; simpl.
  - split; [done |]. intros x. split; [auto |].
    intros [H | (t & Ht & _)]; [done | by apply elem_of_nil in Ht].
  - destruct (vtf_step_spec status acc t Hinv) as [Hinv' Hstep].
    destruct (IH _ Hinv') as [Hfin Hmem]. split; [done |].
    intros x. rewrite Hmem, Hstep. split.
    + intros [[H | H] | (t' & Ht' & H)]; [auto | |].
      * right. exists t. split; [left | done].
      * right. exists t'. split; [by right | done].
    + intros [H | (t' & Ht' & H)]; [auto |].
      apply elem_of_cons in Ht' as [-> | Ht']; [auto |].
      right. by exists t'.
Qed.

Lemma vtf_inv_init : vtf_inv ([], ∅).
Proof.
  split; [| apply NoDup_nil_2]. intros x. unfold seen_get. simpl.
  rewrite lookup_empty. simpl. split; [done | intros H; by apply elem_of_nil in H].
Qed.

(** [ValidTransitionsFrom] lists, without repeats, the targets of the
    triples that leave [status], whoever the actor is. *)
Lemma ValidTransitionsFrom_spec status x :
  x ∈ ValidTransitionsFrom status ↔
  ∃ actor, mkTransition status x actor ∈ validTransitions.
Proof.
  unfold ValidTransitionsFrom.
  destruct (vtf_fold_spec status validTransitions _ vtf_inv_init) as [_ ->].
  simpl. split.
  - intros [H | ([f t a] & Ht & Hf & Hx)]; [by apply elem_of_nil in H |].
    simpl in *. subst. by exists a.
  - intros [a Ha]. right. by exists (mkTransition status x a).
Qed.

Lemma ValidTransitionsFrom_NoDup status : NoDup (ValidTransitionsFrom status).
Proof.
  unfold ValidTransitionsFrom.
  by destruct (vtf_fold_spec status validTransitions _ vtf_inv_init) as [[_ ?] _].
Qed.

Lemma terminal_iff_no_next status :
  terminal status ↔ ValidTransitionsFrom status = [].
Proof.
  unfold terminal. rewrite Forall_forall. split.
  - intros Hterm. apply elem_of_nil_inv. intros x Hx.
    apply ValidTransitionsFrom_spec in Hx as [a Ha].
    by apply (Hterm _ Ha).
  - intros Hnil [f t a] Ht Hf. simpl in Hf. subst f.
    assert (t ∈ ValidTransitionsFrom status) as Hin
      by (apply ValidTransitionsFrom_spec; by exists a).
    rewrite Hnil in Hin. by apply elem_of_nil in Hin.
Qed.

Lemma CanTransition_None from to actor :
  CanTransition from to actor = None ↔
  mkTransition from to actor ∈ validTransitions.
Proof.
  rewrite <- transitionMap_spec. unfold CanTransition.
  destruct (map_get transitionMap (mkKey from to actor)); split; done.
Qed.

Lemma CanTransition_Some from to actor :
  mkTransition from to actor ∉ validTransitions →
  CanTransition from to actor = Some (invalid_transition_message from to actor).
Proof.
  rewrite <- transitionMap_spec. unfold CanTransition.
  destruct (map_get transitionMap (mkKey from to actor)); [done | auto].
Qed.

Lemma CanTransition_terminal status to actor :
  terminal status →
  CanTransition status to actor =
    Some (invalid_transition_message status to actor).
Proof.
  intros Hterm. apply CanTransition_Some. intros Hin.
  unfold terminal in Hterm. rewrite Forall_forall in Hterm.
  by apply (Hterm _ Hin).
Qed.

End TransitionTable.

(** C1. The table has nine distinct triples, and [CanTransition] returns
    nil exactly for them: a move that is in the table for one actor is
    refused, with the invalid-transition error, for every actor it is not
    listed with. *)
Theorem CanTransition_exact_triple :
  length validTransitions = 9 ∧
  NoDup validTransitions ∧
  ∀ from to actor,
    (CanTransition from to actor = None ↔
     mkTransition from to actor ∈ validTransitions) ∧
    (mkTransition from to actor ∉ validTransitions →
     CanTransition from to actor =
       Some (invalid_transition_message from to actor)).
Proof.
  split; [reflexivity |]. split.
  - apply (bool_decide_unpack _). vm_compute. reflexivity.
  - intros from to actor. split.
    + apply CanTransition_None.
    + apply CanTransition_Some.
Qed.

(** The restaurant may confirm a placed order; the customer, asking for
    the same move, is refused. *)
Lemma CanTransition_exact_triple_witness :
  CanTransition StatusPlaced StatusConfirmed "restaurant" = None ∧
  CanTransition StatusPlaced StatusConfirmed "customer" =
    Some (invalid_transition_message StatusPlaced StatusConfirmed "customer").
Proof.
  destruct CanTransition_exact_triple as (_ & _ & H). split.
  - apply (H StatusPlaced StatusConfirmed "restaurant"). repeat constructor.
  - apply (H StatusPlaced StatusConfirmed "customer").
    intros Hin.
    repeat (apply elem_of_cons in Hin as [Hin | Hin]; [discriminate Hin |]).
    by apply elem_of_nil in Hin.
Defined.

(** X2. [ValidTransitionsFrom] is the set of legal next statuses: it
    lists, each once, the targets of the table's triples that start at
    the given status, whichever actor they name. *)
Theorem legal_next_statuses_across_actors (status : OrderStatus) :
  NoDup (ValidTransitionsFrom status) ∧
  ∀ x, x ∈ ValidTransitionsFrom status ↔
       ∃ actor, mkTransition status x actor ∈ validTransitions.
Proof.
  split; [apply ValidTransitionsFrom_NoDup |].
  intros x. apply ValidTransitionsFrom_spec.
Qed.


(** * The handlers, run one request at a time *)

Section Handlers.

Implicit Types (db : DB) (o : Order.t).

Lemma PickupOrder_assigned {B} (c : Context B) db o d :
  orders db !! Param_id c = Some o →
  Order.DriverID o = Some d →
  run (PickupOrder c) db =
    (JSON http.StatusConflict
       [("error", Str "Order has already been picked up by another driver")],
     db).
Proof.
  intros Ho Hd. unfold PickupOrder. simpl. rewrite Ho. simpl. by rewrite Hd.
Qed.

Lemma PickupOrder_invalid {B} (c : Context B) db o err :
  orders db !! Param_id c = Some o →
  Order.DriverID o = None →
  CanTransition (Order.Status o) StatusPickedUp "driver" = Some err →
  run (PickupOrder c) db =
    (JSON http.StatusUnprocessableEntity
       [("error", Str "Invalid state transition");
        ("current_status", Str (Order.Status o));
        ("reason", Str err);
        ("valid_next_states", Strs (ValidTransitionsFrom (Order.Status o)))],
     db).
Proof.
  intros Ho Hd He. unfold PickupOrder. simpl. rewrite Ho. simpl.
  rewrite Hd. simpl. by rewrite He.
Qed.

Lemma DeliverOrder_not_assigned {B} (c : Context B) db o :
  orders db !! Param_id c = Some o →
  Order.DriverID o ≠ Some (userID c) →
  run (DeliverOrder c) db =
    (JSON http.StatusForbidden
       [("error", Str "You are not the assigned driver for this order")],
     db).
Proof.
  intros Ho Hd. unfold DeliverOrder. simpl. rewrite Ho. simpl.
  unfold middleware.GetUserID.
  destruct (bool_decide_reflect (Order.DriverID o = Some (userID c))); [done |].
  by rewrite orb_true_r.
Qed.

End Handlers.

(** C5. When an order already has a driver, a pickup request by a
    different driver is answered with 409 Conflict, which is not the 422
    of an invalid transition, and nothing in storage changes: the order
    keeps its status and its driver. *)
Theorem pickup_by_another_driver_conflicts {B : Type} (c : Context B)
    (db : DB) (o : Order.t) (d : nat) :
  orders db !! Param_id c = Some o →
  Order.DriverID o = Some d →
  d ≠ userID c →
  outcome_of (run (PickupOrder c) db).1 = Conflict ∧
  code (run (PickupOrder c) db).1 = http.StatusConflict ∧
  http.StatusConflict ≠ http.StatusUnprocessableEntity ∧
  (run (PickupOrder c) db).2 = db ∧
  orders (run (PickupOrder c) db).2 !! Param_id c = Some o.
Proof.
  intros Ho Hd _. rewrite (PickupOrder_assigned c db o d Ho Hd). simpl.
  repeat split; done.
Qed.

Lemma pickup_by_another_driver_conflicts_witness :
  outcome_of (run (PickupOrder (on_order_1 8 (None : option unit))) db_picked_up).1
    = Conflict ∧
  (run (PickupOrder (on_order_1 8 (None : option unit))) db_picked_up).2
    = db_picked_up.
Proof.
  pose proof (pickup_by_another_driver_conflicts
                (on_order_1 8 (None : option unit)) db_picked_up
                (sample_order StatusPickedUp (Some 7) 20) 7) as H.
  destruct H as (H1 & _ & _ & H2 & _);
    [vm_compute; reflexivity | reflexivity | simpl; lia | ].
  split; [exact H1 | exact H2].
Defined.

(** C6. When an order has a driver, a delivery request by any other
    driver is answered with 403 Forbidden, which is neither the 422 of
    an invalid transition nor the 409 of a conflict, and nothing in
    storage changes. *)
Theorem delivery_by_another_driver_forbidden {B : Type} (c : Context B)
    (db : DB) (o : Order.t) (d : nat) :
  orders db !! Param_id c = Some o →
  Order.DriverID o = Some d →
  d ≠ userID c →
  outcome_of (run (DeliverOrder c) db).1 = Forbidden ∧
  code (run (DeliverOrder c) db).1 = http.StatusForbidden ∧
  http.StatusForbidden ≠ http.StatusUnprocessableEntity ∧
  http.StatusForbidden ≠ http.StatusConflict ∧
  (run (DeliverOrder c) db).2 = db ∧
  orders (run (DeliverOrder c) db).2 !! Param_id c = Some o.
Proof.
  intros Ho Hd Hne.
  rewrite (DeliverOrder_not_assigned c db o Ho) by congruence. simpl.
  repeat split; done.
Qed.

(** Driver 8 asks to deliver order 1, which driver 7 picked up; the move
    from PICKED_UP to DELIVERED is itself legal for a driver. *)
Lemma delivery_by_another_driver_forbidden_witness :
  CanTransition StatusPickedUp StatusDelivered "driver" = None ∧
  outcome_of (run (DeliverOrder (on_order_1 8 (None : option unit))) db_picked_up).1
    = Forbidden ∧
  (run (DeliverOrder (on_order_1 8 (None : option unit))) db_picked_up).2
    = db_picked_up.
Proof.
  pose proof (delivery_by_another_driver_forbidden
                (on_order_1 8 (None : option unit)) db_picked_up
                (sample_order StatusPickedUp (Some 7) 20) 7) as H.
  destruct H as (H1 & _ & _ & _ & H2 & _);
    [vm_compute; reflexivity | reflexivity | simpl; lia | ].
  split; [vm_compute; reflexivity | split; [exact H1 | exact H2]].
Defined.

(** C10. [PickupOrder] looks at the driver column before it asks the
    state machine. An order that has a driver gets 409 Conflict whatever
    its status is and whoever asks, the assigned driver included, and
    storage is unchanged; only an order without a driver reaches the
    validator and can get 422. *)
Theorem pickup_checks_assignment_before_status {B : Type} (c : Context B)
    (db : DB) (o : Order.t) :
  orders db !! Param_id c = Some o →
  (∀ d, Order.DriverID o = Some d →
        outcome_of (run (PickupOrder c) db).1 = Conflict ∧
        (run (PickupOrder c) db).2 = db) ∧
  (∀ err, Order.DriverID o = None →
          CanTransition (Order.Status o) StatusPickedUp "driver" = Some err →
          outcome_of (run (PickupOrder c) db).1 = InvalidTransition ∧
          (run (PickupOrder c) db).2 = db).
Proof.
  intros Ho. split.
  - intros d Hd. by rewrite (PickupOrder_assigned c db o d Ho Hd).
  - intros err Hd He. by rewrite (PickupOrder_invalid c db o err Ho Hd He).
Qed.

(** Driver 7 asks again for order 1, which they delivered: the move
    from DELIVERED to PICKED_UP is not in the table, and the answer is
    still Conflict. *)
Lemma pickup_checks_assignment_before_status_witness :
  is_Some (CanTransition StatusDelivered StatusPickedUp "driver") ∧
  outcome_of (run (PickupOrder (on_order_1 7 (None : option unit))) db_delivered).1
    = Conflict ∧
  (run (PickupOrder (on_order_1 7 (None : option unit))) db_delivered).2
    = db_delivered.
Proof.
  split; [vm_compute; eauto |].
  refine (proj1 (pickup_checks_assignment_before_status
                   (on_order_1 7 (None : option unit)) db_delivered
                   (sample_order StatusDelivered (Some 7) 20) _) 7 _);
    [vm_compute; reflexivity | reflexivity].
Defined.

(** * What a successful request leaves behind *)

Section Success.

Implicit Types (db : DB) (o : Order.t) (h : OrderStatusHistory.t).

Lemma outcome_Success (r : Response) :
  outcome_of r = Success → code r = 200 ∨ code r = 201.
Proof.
  unfold outcome_of, http.StatusOK, http.StatusCreated.
  repeat case_bool_decide; auto; discriminate.
Qed.

(** A response that is not 200 or 201 is not a success. *)
Ltac refused H :=
  apply outcome_Success in H; simpl in H; destruct H as [H | H]; discriminate H.

Lemma CancelOrder_success {B} (c : Context B) db :
  outcome_of (run (CancelOrder c) db).1 = Success →
  ∃ o,
    orders db !! Param_id c = Some o ∧
    Order.CustomerID o = userID c ∧
    CanTransition (Order.Status o) StatusCancelled "customer" = None ∧
    (run (CancelOrder c) db).2 =
      mkDB (alter (fun o => foldl set_column o [status_col StatusCancelled])
                  (Param_id c) (orders db))
           (order_seq db) (restaurants db) (menu_items db)
           (histories db ++
            [OrderStatusHistory.mk (S (length (histories db))) (Param_id c)
               (Order.Status o) StatusCancelled (userID c)
               "Order cancelled by customer"]).
Proof.
  unfold CancelOrder, middleware.GetUserID. simpl.
  destruct (orders db !! Param_id c) as [o|] eqn:Ho; simpl; [| intros H; refused H].
  destruct (bool_decide_reflect (Order.CustomerID o = userID c)) as [Hc | Hc];
    simpl; [| intros H; refused H].
  destruct (CanTransition (Order.Status o) StatusCancelled "customer") eqn:Hv;
    simpl; [intros H; refused H |].
  intros _. by exists o.
Qed.

Lemma PickupOrder_success {B} (c : Context B) db :
  outcome_of (run (PickupOrder c) db).1 = Success →
  ∃ o,
    orders db !! Param_id c = Some o ∧
    Order.DriverID o = None ∧
    CanTransition (Order.Status o) StatusPickedUp "driver" = None ∧
    (run (PickupOrder c) db).2 =
      mkDB (alter (fun o => foldl set_column o
                              [status_col StatusPickedUp; driver_id_col (userID c)])
                  (Param_id c) (orders db))
           (order_seq db) (restaurants db) (menu_items db)
           (histories db ++
            [OrderStatusHistory.mk (S (length (histories db))) (Param_id c)
               (Order.Status o) StatusPickedUp (userID c)
               "Driver picked up the order"]).
Proof.
  unfold PickupOrder, middleware.GetUserID. simpl.
  destruct (orders db !! Param_id c) as [o|] eqn:Ho; simpl; [| intros H; refused H].
  destruct (Order.DriverID o) as [d|] eqn:Hd; simpl; [intros H; refused H |].
  destruct (CanTransition (Order.Status o) StatusPickedUp "driver") eqn:Hv;
    simpl; [intros H; refused H |].
  intros _. by exists o.
Qed.

Lemma DeliverOrder_success {B} (c : Context B) db :
  outcome_of (run (DeliverOrder c) db).1 = Success →
  ∃ o,
    orders db !! Param_id c = Some o ∧
    Order.DriverID o = Some (userID c) ∧
    CanTransition (Order.Status o) StatusDelivered "driver" = None ∧
    (run (DeliverOrder c) db).2 =
      mkDB (alter (fun o => foldl set_column o [status_col StatusDelivered])
                  (Param_id c) (orders db))
           (order_seq db) (restaurants db) (menu_items db)
           (histories db ++
            [OrderStatusHistory.mk (S (length (histories db))) (Param_id c)
               (Order.Status o) StatusDelivered (userID c)
               "Order delivered to customer"]).
Proof.
  unfold DeliverOrder, middleware.GetUserID. simpl.
  destruct (orders db !! Param_id c) as [o|] eqn:Ho; simpl; [| intros H; refused H].
  destruct (bool_decide_reflect (Order.DriverID o = Some (userID c))) as [Hd | Hd];
    simpl; [| rewrite orb_true_r; intros H; refused H].
  rewrite orb_false_r.
  destruct (bool_decide_reflect (Order.DriverID o = None)) as [Hn | Hn];
    simpl; [congruence |].
  destruct (CanTransition (Order.Status o) StatusDelivered "driver") eqn:Hv;
    simpl; [intros H; refused H |].
  intros _. by exists o.
Qed.

Lemma AdminForceOrderStatus_success (c : Context AdminForceRequest) db :
  outcome_of (run (AdminForceOrderStatus c) db).1 = Success →
  ∃ o req,
    orders db !! Param_id c = Some o ∧
    json c = Some req ∧
    (run (AdminForceOrderStatus c) db).2 =
      mkDB (alter (fun o => foldl set_column o [status_col (force_Status req)])
                  (Param_id c) (orders db))
           (order_seq db) (restaurants db) (menu_items db)
           (histories db ++
            [OrderStatusHistory.mk (S (length (histories db))) (Param_id c)
               (Order.Status o) (force_Status req) 0
               ("[ADMIN OVERRIDE] " +:+ force_Reason req)]).
Proof.
  unfold AdminForceOrderStatus, ShouldBindJSON. simpl.
  destruct (json c) as [req|] eqn:Hj; simpl; [| intros H; refused H].
  destruct (AdminForceRequest_valid req); simpl; [| intros H; refused H].
  destruct (orders db !! Param_id c) as [o|] eqn:Ho; simpl; [| intros H; refused H].
  intros _. by exists o, req.
Qed.

Lemma UpdateOrderStatus_success (c : Context UpdateOrderStatusRequest) db :
  outcome_of (run (UpdateOrderStatus c) db).1 = Success →
  ∃ o req,
    orders db !! Param_id c = Some o ∧
    json c = Some req ∧
    CanTransition (Order.Status o) (upd_Status req) "restaurant" = None ∧
    (run (UpdateOrderStatus c) db).2 =
      mkDB (if bool_decide (upd_Status req = StatusPreparing)
            then alter (fun o => foldl set_column o [estimated_time_col 20])
                       (Param_id c)
                       (alter (fun o => foldl set_column o [status_col (upd_Status req)])
                              (Param_id c) (orders db))
            else alter (fun o => foldl set_column o [status_col (upd_Status req)])
                       (Param_id c) (orders db))
           (order_seq db) (restaurants db) (menu_items db)
           (histories db ++
            [OrderStatusHistory.mk (S (length (histories db))) (Param_id c)
               (Order.Status o) (upd_Status req) (userID c) (upd_Note req)]).
Proof.
  unfold UpdateOrderStatus, ShouldBindJSON, middleware.GetUserID. simpl.
  destruct (List.find _ (restaurants db)) as [r|]; simpl; [| intros H; refused H].
  destruct (orders db !! Param_id c) as [o|] eqn:Ho; simpl; [| intros H; refused H].
  destruct (bool_decide (Order.RestaurantID o = Restaurant.ID r));
    simpl; [| intros H; refused H].
  destruct (json c) as [req|] eqn:Hj; simpl; [| intros H; refused H].
  destruct (UpdateOrderStatusRequest_valid req); simpl; [| intros H; refused H].
  destruct (CanTransition (Order.Status o) (upd_Status req) "restaurant") eqn:Hv;
    simpl; [intros H; refused H |].
  intros _. exists o, req. repeat split; [done.. |].
  unfold when. by destruct (bool_decide (upd_Status req = StatusPreparing)).
Qed.

(** The loop over the requested items reads the menu and writes nothing:
    it either answers 400 or hands some item list to the rest of the
    handler. *)
Lemma PlaceOrder_items_run db restaurantID k items : ∀ orderItems,
  (code (run (PlaceOrder_items restaurantID items orderItems k) db).1
     = http.StatusBadRequest ∧
   (run (PlaceOrder_items restaurantID items orderItems k) db).2 = db) ∨
  ∃ built,
    run (PlaceOrder_items restaurantID items orderItems k) db = run (k built) db.
Proof.
  induction items as [|it items IH]; intros orderItems; simpl.
  - right. by exists orderItems.
  - destruct (menu_items db !! item_MenuItemID it) as [m|]; simpl; [| by left].
    destruct (bool_decide (MenuItem.RestaurantID m = restaurantID));
      simpl; [| by left].
    destruct (MenuItem.IsAvailable m); simpl; [| by left].
    apply IH.
Qed.

Lemma PlaceOrder_success (c : Context PlaceOrderRequest) db :
  outcome_of (run (PlaceOrder c) db).1 = Success →
  ∃ req orderItems,
    json c = Some req ∧
    (run (PlaceOrder c) db).2 =
      mkDB (<[S (order_seq db) :=
                Order.mk (S (order_seq db)) (userID c) (req_RestaurantID req) None
                  StatusPlaced (req_DeliveryAddress req) (req_Notes req)
                  (30 + 5 * Z.of_nat (length (req_Items req)))%Z orderItems]>
              (orders db))
           (S (order_seq db)) (restaurants db) (menu_items db)
           (histories db ++
            [OrderStatusHistory.mk (S (length (histories db))) (S (order_seq db))
               "" StatusPlaced (userID c) "Order placed by customer"]).
Proof.
  unfold PlaceOrder, ShouldBindJSON, middleware.GetUserID. simpl.
  destruct (json c) as [req|] eqn:Hj; simpl; [| intros H; refused H].
  destruct (PlaceOrderRequest_valid req); simpl; [| intros H; refused H].
  destruct (List.find _ (restaurants db)) as [r|]; simpl; [| intros H; refused H].
  destruct (Restaurant.IsOpen r); simpl; [| intros H; refused H].
  match goal with
  | |- context [run (PlaceOrder_items ?rid ?items ?acc ?k) db] =>
      destruct (PlaceOrder_items_run db rid k items acc)
        as [[Hcode _] | [built Hrun]]
  end.
  - intros H. apply outcome_Success in H. rewrite Hcode in H.
    destruct H; discriminate.
  - rewrite Hrun. simpl. intros _. by exists req, built.
Qed.

End Success.

Section AuditTrail.

Implicit Types (db : DB) (o : Order.t) (h : OrderStatusHistory.t).

Lemma latest_after_append db hs h id :
  histories db = hs ++ [h] →
  OrderStatusHistory.OrderID h = id →
  latest db id = Some h.
Proof.
  intros Hh <-. unfold latest, History. rewrite Hh, filter_app.
  rewrite (filter_cons_True _ h []) by done.
  rewrite filter_nil. apply last_snoc.
Qed.

End AuditTrail.

(** * The audit trail over the life of the store *)

Section Invariant.

Implicit Types (db : DB) (o : Order.t) (h : OrderStatusHistory.t).

Lemma latest_other db db' h id :
  histories db' = histories db ++ [h] →
  OrderStatusHistory.OrderID h ≠ id →
  latest db' id = latest db id.
Proof.
  intros Hh Hne. unfold latest, History. rewrite Hh, filter_app.
  rewrite (filter_cons_False _ h []) by done.
  by rewrite filter_nil, app_nil_r.
Qed.

Lemma consistent_update db id (f : Order.t → Order.t) h o rs ms :
  consistent db →
  orders db !! id = Some o →
  OrderStatusHistory.OrderID h = id →
  OrderStatusHistory.ToStatus h = Order.Status (f o) →
  consistent (mkDB (alter f id (orders db)) (order_seq db) rs ms
                   (histories db ++ [h])).
Proof.
  intros [Hord Hhist] Ho Hid Hto. split; cbn [orders order_seq histories].
  - intros id' o'. destruct (decide (id = id')) as [<- | Hne].
    + rewrite lookup_alter_eq, Ho. simpl. intros [= <-].
      split; [by apply (Hord id o) |]. exists h.
      split; [by apply (latest_after_append _ (histories db)) | done].
    + rewrite lookup_alter_ne by done. intros Ho'.
      destruct (Hord id' o' Ho') as (Hle & h' & Hlast & Hst).
      split; [done |]. exists h'. split; [| done].
      rewrite <- Hlast. apply (latest_other db _ h); [done | congruence].
  - intros h' Hin. apply elem_of_app in Hin as [Hin | Hin]; [by apply Hhist |].
    apply list_elem_of_singleton in Hin as ->. rewrite Hid.
    by apply (Hord id o).
Qed.

Lemma consistent_insert db h o rs ms :
  consistent db →
  OrderStatusHistory.OrderID h = S (order_seq db) →
  OrderStatusHistory.ToStatus h = Order.Status o →
  consistent (mkDB (<[S (order_seq db) := o]> (orders db)) (S (order_seq db))
                   rs ms (histories db ++ [h])).
Proof.
  intros [Hord Hhist] Hid Hto. split; cbn [orders order_seq histories].
  - intros id' o'. destruct (decide (S (order_seq db) = id')) as [<- | Hne].
    + rewrite lookup_insert_eq. intros [= <-]. split; [done |]. exists h.
      split; [by apply (latest_after_append _ (histories db)) | done].
    + rewrite lookup_insert_ne by done. intros Ho'.
      destruct (Hord id' o' Ho') as (Hle & h' & Hlast & Hst).
      split; [lia |]. exists h'. split; [| done].
      rewrite <- Hlast. apply (latest_other db _ h); [done | congruence].
  - intros h' Hin. apply elem_of_app in Hin as [Hin | Hin].
    + specialize (Hhist h' Hin). lia.
    + apply list_elem_of_singleton in Hin as ->. lia.
Qed.

(** A request either succeeds or leaves storage as it was. *)
Lemma refused_changes_nothing op db :
  outcome_of (run (handler op) db).1 = Success ∨ (run (handler op) db).2 = db.
Proof.
  destruct op as [c | c | c | c | c | c]; cbn [handler].
  - unfold PlaceOrder, ShouldBindJSON. simpl.
    destruct (json c) as [req|]; simpl; [| by right].
    destruct (PlaceOrderRequest_valid req); simpl; [| by right].
    destruct (List.find _ (restaurants db)) as [r|]; simpl; [| by right].
    destruct (Restaurant.IsOpen r); simpl; [| by right].
    match goal with
    | |- context [run (PlaceOrder_items ?rid ?items ?acc ?k) db] =>
        destruct (PlaceOrder_items_run db rid k items acc)
          as [[_ Hdb] | [built Hrun]]
    end; [by right |].
    rewrite Hrun. by left.
  - unfold UpdateOrderStatus, ShouldBindJSON. simpl.
    destruct (List.find _ (restaurants db)) as [r|]; simpl; [| by right].
    destruct (orders db !! Param_id c) as [o|]; simpl; [| by right].
    destruct (bool_decide (Order.RestaurantID o = Restaurant.ID r));
      simpl; [| by right].
    destruct (json c) as [req|]; simpl; [| by right].
    destruct (UpdateOrderStatusRequest_valid req); simpl; [| by right].
    destruct (CanTransition _ _ _); simpl; [by right |].
    left. unfold when. by destruct (bool_decide _).
  - unfold CancelOrder. simpl.
    destruct (orders db !! Param_id c) as [o|]; simpl; [| by right].
    destruct (bool_decide _); simpl; [| by right].
    destruct (CanTransition _ _ _); simpl; [by right | by left].
  - unfold PickupOrder. simpl.
    destruct (orders db !! Param_id c) as [o|]; simpl; [| by right].
    destruct (Order.DriverID o); simpl; [by right |].
    destruct (CanTransition _ _ _); simpl; [by right | by left].
  - unfold DeliverOrder. simpl.
    destruct (orders db !! Param_id c) as [o|]; simpl; [| by right].
    destruct (_ || _); simpl; [by right |].
    destruct (CanTransition _ _ _); simpl; [by right | by left].
  - unfold AdminForceOrderStatus, ShouldBindJSON. simpl.
    destruct (json c) as [req|]; simpl; [| by right].
    destruct (AdminForceRequest_valid req); simpl; [| by right].
    destruct (orders db !! Param_id c) as [o|]; simpl; [by left | by right].
Qed.

Lemma consistent_operation op db :
  consistent db → consistent (run (handler op) db).2.
Proof.
  intros Hc. destruct (refused_changes_nothing op db) as [Hok | ->]; [| done].
  destruct op as [c | c | c | c | c | c]; cbn [handler] in *.
  - destruct (PlaceOrder_success c db Hok) as (req & items & _ & ->).
    by apply consistent_insert.
  - destruct (UpdateOrderStatus_success c db Hok) as (o & req & Ho & _ & _ & ->).
    case_bool_decide.
    + rewrite alter_alter_eq. by apply (consistent_update db _ _ _ o).
    + by apply (consistent_update db _ _ _ o).
  - destruct (CancelOrder_success c db Hok) as (o & Ho & _ & _ & ->).
    by apply (consistent_update db _ _ _ o).
  - destruct (PickupOrder_success c db Hok) as (o & Ho & _ & _ & ->).
    by apply (consistent_update db _ _ _ o).
  - destruct (DeliverOrder_success c db Hok) as (o & Ho & _ & _ & ->).
    by apply (consistent_update db _ _ _ o).
  - destruct (AdminForceOrderStatus_success c db Hok) as (o & req & Ho & _ & ->).
    by apply (consistent_update db _ _ _ o).
Qed.

(** Served one request at a time, the store always has, for every order,
    a latest history row that ends in the order's current status. *)
Lemma reachable_consistent db : reachable db → consistent db.
Proof.
  induction 1 as [rs ms | db op _ IH | db rs ms _ IH].
  - split; cbn [orders histories].
    + intros id o Ho. by rewrite lookup_empty in Ho.
    + intros h Hin. by apply elem_of_nil in Hin.
  - by apply consistent_operation.
  - exact IH.
Qed.

Lemma reachable_serve_all ops : ∀ db, reachable db → reachable (serve_all ops db).
Proof.
  induction ops as [|op ops IH]; intros db Hr; [done |].
  apply IH. by apply reachable_operation.
Qed.

(** The sample stores are stores the handlers produce. *)
Lemma sample_stores_reachable :
  reachable db_empty ∧ reachable db_placed ∧ reachable db_preparing ∧
  reachable db_ready ∧ reachable db_picked_up ∧ reachable db_delivered.
Proof.
  assert (reachable db_empty) as H0 by apply reachable_start.
  split; [done |].
  split; [apply (reachable_serve_all [place_two_dosas] _ H0) |].
  split; [apply (reachable_serve_all
                   [place_two_dosas; confirm_order_1; prepare_order_1] _ H0) |].
  split; [apply (reachable_serve_all
                   [place_two_dosas; confirm_order_1; prepare_order_1;
                    pack_order_1] _ H0) |].
  split; [apply (reachable_serve_all
                   [place_two_dosas; confirm_order_1; prepare_order_1;
                    pack_order_1; pickup_order_1] _ H0) |].
  apply (reachable_serve_all
           [place_two_dosas; confirm_order_1; prepare_order_1;
            pack_order_1; pickup_order_1; deliver_order_1] _ H0).
Qed.

End Invariant.

(** X1. Served one request at a time from a store with no orders, every
    order of the store has a history, and the to-status of its latest
    history row is the order's current status. *)
Theorem status_is_latest_to_status (db : DB) (id : nat) (o : Order.t) :
  reachable db →
  orders db !! id = Some o →
  ∃ h, latest db id = Some h ∧
       OrderStatusHistory.ToStatus h = Order.Status o.
Proof.
  intros Hr Ho. by destruct (reachable_consistent db Hr) as [Hc _], (Hc id o Ho).
Qed.

Lemma status_is_latest_to_status_witness :
  ∃ h, latest db_delivered 1 = Some h ∧
       OrderStatusHistory.ToStatus h = StatusDelivered.
Proof.
  apply (status_is_latest_to_status db_delivered 1
           (sample_order StatusDelivered (Some 7) 20)).
  - apply sample_stores_reachable.
  - vm_compute. reflexivity.
Defined.

(** * The admin override *)

Section Override.

Implicit Types (db : DB) (o : Order.t) (c : Context AdminForceRequest).

Lemma AdminForceOrderStatus_applies c db req o :
  json c = Some req →
  force_Status req ≠ "" →
  orders db !! Param_id c = Some o →
  run (AdminForceOrderStatus c) db =
    (JSON http.StatusOK
       [("message", Str "Order status force-updated by admin");
        ("order_id", Num (Param_id c));
        ("previous_status", Str (Order.Status o));
        ("new_status", Str (force_Status req))],
     mkDB (alter (fun o => foldl set_column o [status_col (force_Status req)])
                 (Param_id c) (orders db))
          (order_seq db) (restaurants db) (menu_items db)
          (histories db ++
           [OrderStatusHistory.mk (S (length (histories db))) (Param_id c)
              (Order.Status o) (force_Status req) 0
              ("[ADMIN OVERRIDE] " +:+ force_Reason req)])).
Proof.
  intros Hj Hs Ho. unfold AdminForceOrderStatus, ShouldBindJSON. rewrite Hj.
  unfold AdminForceRequest_valid. rewrite bool_decide_eq_false_2 by done.
  simpl. by rewrite Ho.
Qed.

Lemma AdminForceOrderStatus_missing c db req :
  json c = Some req →
  force_Status req ≠ "" →
  orders db !! Param_id c = None →
  run (AdminForceOrderStatus c) db =
    (JSON http.StatusNotFound [("error", Str "Order not found")], db).
Proof.
  intros Hj Hs Ho. unfold AdminForceOrderStatus, ShouldBindJSON. rewrite Hj.
  unfold AdminForceRequest_valid. rewrite bool_decide_eq_false_2 by done.
  simpl. by rewrite Ho.
Qed.

Lemma AdminForceOrderStatus_outcomes c db :
  outcome_of (run (AdminForceOrderStatus c) db).1 = Success ∨
  outcome_of (run (AdminForceOrderStatus c) db).1 = NotFound ∨
  outcome_of (run (AdminForceOrderStatus c) db).1 = BadRequest.
Proof.
  unfold AdminForceOrderStatus, ShouldBindJSON.
  destruct (json c) as [req|]; [| by right; right].
  destruct (AdminForceRequest_valid req); [| by right; right]. simpl.
  destruct (orders db !! Param_id c); simpl; [by left | by right; left].
Qed.

End Override.

(** C7. The admin override never asks the state machine. For an order
    that exists and any requested status (the [required] tag rules out
    only the empty one) it answers 200, writes the requested status
    whatever the current one is, and appends one history row whose note
    starts with the override tag. For an order that does not exist it
    answers 404 and changes nothing. These are its only two answers to
    such a request; the 422 of an invalid transition is not among
    them. *)
Theorem admin_override_bypasses_validator (c : Context AdminForceRequest)
    (db : DB) (req : AdminForceRequest) :
  json c = Some req →
  force_Status req ≠ "" →
  (∀ o, orders db !! Param_id c = Some o →
        outcome_of (run (AdminForceOrderStatus c) db).1 = Success ∧
        (run (AdminForceOrderStatus c) db).2 =
          mkDB (alter (fun o => foldl set_column o [status_col (force_Status req)])
                      (Param_id c) (orders db))
               (order_seq db) (restaurants db) (menu_items db)
               (histories db ++
                [OrderStatusHistory.mk (S (length (histories db))) (Param_id c)
                   (Order.Status o) (force_Status req) 0
                   ("[ADMIN OVERRIDE] " +:+ force_Reason req)]) ∧
        ∃ o', orders (run (AdminForceOrderStatus c) db).2 !! Param_id c = Some o' ∧
              Order.Status o' = force_Status req) ∧
  (orders db !! Param_id c = None →
   outcome_of (run (AdminForceOrderStatus c) db).1 = NotFound ∧
   (run (AdminForceOrderStatus c) db).2 = db) ∧
  (outcome_of (run (AdminForceOrderStatus c) db).1 = Success ∨
   outcome_of (run (AdminForceOrderStatus c) db).1 = NotFound).
Proof.
  intros Hj Hs. split; [| split].
  - intros o Ho. rewrite (AdminForceOrderStatus_applies c db req o Hj Hs Ho).
    simpl. split; [done |]. split; [done |].
    rewrite lookup_alter_eq, Ho. simpl. eauto.
  - intros Ho. by rewrite (AdminForceOrderStatus_missing c db req Hj Hs Ho).
  - destruct (orders db !! Param_id c) as [o|] eqn:Ho.
    + left. by rewrite (AdminForceOrderStatus_applies c db req o Hj Hs Ho).
    + right. by rewrite (AdminForceOrderStatus_missing c db req Hj Hs Ho).
Qed.

(** The administrator puts the delivered order 1 back to PLACED, a move
    that no actor may make through the table. *)
Lemma admin_override_bypasses_validator_witness :
  terminal StatusDelivered ∧
  outcome_of (run (AdminForceOrderStatus
                     (on_order_1 9 (Some (mkAdminForceRequest StatusPlaced "refund"))))
                  db_delivered).1 = Success ∧
  ∃ o', orders (run (AdminForceOrderStatus
                       (on_order_1 9 (Some (mkAdminForceRequest StatusPlaced "refund"))))
                    db_delivered).2 !! 1 = Some o' ∧
        Order.Status o' = StatusPlaced.
Proof.
  split; [by vm_compute; repeat constructor |].
  destruct (admin_override_bypasses_validator
              (on_order_1 9 (Some (mkAdminForceRequest StatusPlaced "refund")))
              db_delivered (mkAdminForceRequest StatusPlaced "refund"))
    as (H & _ & _); [reflexivity | discriminate |].
  destruct (H (sample_order StatusDelivered (Some 7) 20)) as (H1 & _ & H2);
    [vm_compute; reflexivity |].
  split; [exact H1 | exact H2].
Defined.

(** C9. What each successful operation writes in the history row's
    [ChangedBy]: the caller's user id for the five workflow operations,
    and nothing (the zero value) for the admin override, which never
    reads the caller's id. The from-status, to-status and note are
    filled in by all six. *)
Theorem history_row_actor (op : operation) (db : DB) :
  outcome_of (run (handler op) db).1 = Success →
  ∃ h,
    histories (run (handler op) db).2 = histories db ++ [h] ∧
    OrderStatusHistory.ChangedBy h = (if is_override op then 0 else caller op).
Proof.
  intros Hok. destruct op as [c | c | c | c | c | c]; cbn [handler] in *.
  - destruct (PlaceOrder_success c db Hok) as (req & items & _ & ->).
    by eexists.
  - destruct (UpdateOrderStatus_success c db Hok) as (o & req & _ & _ & _ & ->).
    by eexists.
  - destruct (CancelOrder_success c db Hok) as (o & _ & _ & _ & ->). by eexists.
  - destruct (PickupOrder_success c db Hok) as (o & _ & _ & _ & ->). by eexists.
  - destruct (DeliverOrder_success c db Hok) as (o & _ & _ & _ & ->). by eexists.
  - destruct (AdminForceOrderStatus_success c db Hok) as (o & req & _ & _ & ->).
    by eexists.
Qed.

(** The administrator is user 9; the row written for the override names
    user 0, which is nobody. *)
Lemma history_row_actor_witness :
  caller (admin_force_order_status
            (on_order_1 9 (Some (mkAdminForceRequest StatusCancelled "fraud")))) = 9 ∧
  ∃ h,
    histories (run (handler (admin_force_order_status
                 (on_order_1 9 (Some (mkAdminForceRequest StatusCancelled "fraud")))))
               db_ready).2 = trail_ready ++ [h] ∧
    OrderStatusHistory.ChangedBy h = 0.
Proof.
  split; [reflexivity |].
  apply (history_row_actor
           (admin_force_order_status
              (on_order_1 9 (Some (mkAdminForceRequest StatusCancelled "fraud"))))
           db_ready).
  vm_compute. reflexivity.
Defined.

(** * Orders in a terminal status *)

Section Terminal.

Implicit Types (db : DB) (o : Order.t).

Lemma terminal_statuses s :
  s ∈ all_statuses →
  terminal s ↔ s = StatusDelivered ∨ s = StatusCancelled.
Proof.
  intros Hs. rewrite terminal_iff_no_next. unfold all_statuses in Hs.
  repeat (apply elem_of_cons in Hs as [-> | Hs]);
    [.. | by apply elem_of_nil in Hs];
    vm_compute;
    (split;
     [ intros H; first [discriminate H | by left | by right]
     | intros [H | H]; first [discriminate H | reflexivity] ]).
Qed.

Lemma describeValidFrom_terminal s :
  terminal s → describeValidFrom s = "none (terminal state)".
Proof.
  intros H. apply terminal_iff_no_next in H. unfold describeValidFrom.
  by rewrite H.
Qed.

(** No workflow request moves an order out of a terminal status; the
    request is refused by the state machine if it gets that far, and by
    one of the handler's earlier checks otherwise. Which answer it is
    follows the order of the checks in each handler. *)
Lemma terminal_order_stays op db id o :
  is_override op = false →
  target op = Some id →
  orders db !! id = Some o →
  terminal (Order.Status o) →
  (run (handler op) db).2 = db ∧
  (outcome_of (run (handler op) db).1 = InvalidTransition ∨
   outcome_of (run (handler op) db).1 = Forbidden ∨
   outcome_of (run (handler op) db).1 = Conflict ∨
   outcome_of (run (handler op) db).1 = NotFound ∨
   outcome_of (run (handler op) db).1 = BadRequest) ∧
  (reaches_validator op db o →
   outcome_of (run (handler op) db).1 = InvalidTransition) ∧
  match op with
  | update_order_status c =>
      match (exec (FirstRestaurantWhereOwner (userID c)) db).1 with
      | None => outcome_of (run (handler op) db).1 = NotFound
      | Some r =>
          if bool_decide (Order.RestaurantID o = Restaurant.ID r) then
            match ShouldBindJSON UpdateOrderStatusRequest_valid c with
            | None => outcome_of (run (handler op) db).1 = BadRequest
            | Some _ => outcome_of (run (handler op) db).1 = InvalidTransition
            end
          else outcome_of (run (handler op) db).1 = Forbidden
      end
  | cancel_order c =>
      if bool_decide (Order.CustomerID o = userID c)
      then outcome_of (run (handler op) db).1 = InvalidTransition
      else outcome_of (run (handler op) db).1 = Forbidden
  | pickup_order c =>
      match Order.DriverID o with
      | Some _ => outcome_of (run (handler op) db).1 = Conflict
      | None => outcome_of (run (handler op) db).1 = InvalidTransition
      end
  | deliver_order c =>
      if bool_decide (Order.DriverID o = Some (userID c))
      then outcome_of (run (handler op) db).1 = InvalidTransition
      else outcome_of (run (handler op) db).1 = Forbidden
  | place_order _ | admin_force_order_status _ => True
  end.
Proof.
  intros Hov Ht Ho Hterm.
  destruct op as [c | c | c | c | c | c]; try discriminate;
    injection Ht as <-; cbn [handler reaches_validator].
  - unfold UpdateOrderStatus, middleware.GetUserID. simpl.
    destruct (List.find _ (restaurants db)) as [r|] eqn:Hr; simpl.
    2: { split; [done |]. split; [auto 10 |].
         split; [by intros (? & ? & ? & _) | done]. }
    rewrite Ho. simpl.
    destruct (bool_decide_reflect (Order.RestaurantID o = Restaurant.ID r));
      simpl.
    2: { split; [done |]. split; [auto 10 |]. split; [| done].
         intros (r' & ? & Hr' & ? & _). congruence. }
    destruct (ShouldBindJSON UpdateOrderStatusRequest_valid c) as [req|]; simpl.
    2: { split; [done |]. split; [auto 10 |].
         split; [by intros (? & ? & _ & _ & ?) | done]. }
    rewrite (CanTransition_terminal _ (upd_Status req) "restaurant" Hterm).
    simpl. auto.
  - unfold CancelOrder, middleware.GetUserID. simpl. rewrite Ho. simpl.
    destruct (bool_decide_reflect (Order.CustomerID o = userID c)); simpl.
    2: { split; [done |]. split; [auto 10 | done]. }
    rewrite (CanTransition_terminal _ StatusCancelled "customer" Hterm).
    simpl. auto.
  - unfold PickupOrder. simpl. rewrite Ho. simpl.
    destruct (Order.DriverID o) as [d|]; simpl.
    { split; [done |]. split; [auto 10 | done]. }
    rewrite (CanTransition_terminal _ StatusPickedUp "driver" Hterm).
    simpl. auto.
  - unfold DeliverOrder, middleware.GetUserID. simpl. rewrite Ho. simpl.
    destruct (bool_decide_reflect (Order.DriverID o = Some (userID c))) as [Hd | Hd];
      simpl.
    2: { rewrite orb_true_r. split; [done |]. split; [auto 10 | done]. }
    rewrite Hd. simpl.
    rewrite (CanTransition_terminal _ StatusDelivered "driver" Hterm).
    simpl. auto.
Qed.

End Terminal.




(** * What a denial tells the caller *)

Section Denials.

Implicit Types (db : DB) (o : Order.t) (s : OrderStatus).

Lemma string_app_assoc (a b c : string) : (a +:+ b) +:+ c = a +:+ (b +:+ c).
Proof.
  induction a as [|x a IH]; [done |].
  change (String x (((a +:+ b)) +:+ c) = String x (a +:+ (b +:+ c))).
  by rewrite IH.
Qed.

Lemma string_app_nil_r (a : string) : a +:+ "" = a.
Proof.
  induction a as [|x a IH]; [done |].
  change (String x (a +:+ "") = String x a). by rewrite IH.
Qed.

(** After the first element the loop of [describeValidFrom] puts a comma
    before each status. *)
Lemma join_statuses_tail (nexts : list OrderStatus) : ∀ i result,
  0 < i →
  join_statuses i nexts result =
    match nexts with
    | [] => result
    | _ => result +:+ ", " +:+ String.concat ", " nexts
    end.
Proof.
  induction nexts as [|s rest IH]; intros i result Hi; [done |].
  cbn [join_statuses]. rewrite decide_True by done.
  rewrite IH by lia. destruct rest as [|s' rest].
  - cbn [String.concat]. by rewrite string_app_assoc.
  - change (String.concat ", " (s :: s' :: rest))
      with (s +:+ ", " +:+ String.concat ", " (s' :: rest)).
    by rewrite !string_app_assoc.
Qed.

(** The text of [describeValidFrom]: the legal next statuses separated
    by commas, or a fixed phrase when there are none. *)
Lemma describeValidFrom_spec s :
  describeValidFrom s =
    match ValidTransitionsFrom s with
    | [] => "none (terminal state)"
    | nexts => String.concat ", " nexts
    end.
Proof.
  unfold describeValidFrom. destruct (ValidTransitionsFrom s) as [|x rest]; [done |].
  rewrite decide_False by done. cbn [join_statuses].
  rewrite decide_False by lia. rewrite join_statuses_tail by lia.
  destruct rest as [|y rest]; [done |].
  change (String.concat ", " (x :: y :: rest))
    with (x +:+ ", " +:+ String.concat ", " (y :: rest)).
  by rewrite string_app_assoc.
Qed.

(** The error text ends with that description. *)
Lemma invalid_transition_message_ends from to actor :
  invalid_transition_message from to actor =
    ("invalid transition: " +:+ from +:+ " → " +:+ to +:+
     " is not allowed for actor '" +:+ actor +:+ "'. " +:+
     "Valid transitions from " +:+ from +:+ " are: ") +:+ describeValidFrom from.
Proof. unfold invalid_transition_message. by rewrite !string_app_assoc. Qed.

Lemma CanTransition_Some_inv from to actor err :
  CanTransition from to actor = Some err →
  err = invalid_transition_message from to actor.
Proof.
  unfold CanTransition. destruct (map_get _ _); [done | congruence].
Qed.

Lemma outcome_InvalidTransition (r : Response) :
  outcome_of r = InvalidTransition → code r = 422.
Proof.
  unfold outcome_of, http.StatusOK, http.StatusCreated, http.StatusBadRequest,
    http.StatusForbidden, http.StatusNotFound, http.StatusConflict,
    http.StatusUnprocessableEntity.
  repeat case_bool_decide; auto; discriminate.
Qed.

(** A response that is not 422 is not an invalid-transition denial. *)
Ltac not_denied H :=
  apply outcome_InvalidTransition in H; simpl in H; discriminate H.

Lemma PlaceOrder_never_invalid (c : Context PlaceOrderRequest) db :
  outcome_of (run (PlaceOrder c) db).1 ≠ InvalidTransition.
Proof.
  unfold PlaceOrder, ShouldBindJSON. simpl.
  destruct (json c) as [req|]; simpl; [| intros H; not_denied H].
  destruct (PlaceOrderRequest_valid req); simpl; [| intros H; not_denied H].
  destruct (List.find _ (restaurants db)) as [r|]; simpl; [| intros H; not_denied H].
  destruct (Restaurant.IsOpen r); simpl; [| intros H; not_denied H].
  match goal with
  | |- context [run (PlaceOrder_items ?rid ?items ?acc ?k) db] =>
      destruct (PlaceOrder_items_run db rid k items acc)
        as [[Hcode _] | [built Hrun]]
  end.
  - intros H. apply outcome_InvalidTransition in H. rewrite Hcode in H.
    discriminate.
  - rewrite Hrun. simpl. intros H; not_denied H.
Qed.

Lemma invalid_denial_detail op db :
  outcome_of (run (handler op) db).1 = InvalidTransition →
  ∃ id o to actor,
    target op = Some id ∧
    orders db !! id = Some o ∧
    (run (handler op) db).2 = db ∧
    CanTransition (Order.Status o) to actor =
      Some (invalid_transition_message (Order.Status o) to actor) ∧
    carries_current_status (body (run (handler op) db).1) (Order.Status o) ∧
    get (body (run (handler op) db).1) "reason" =
      Some (Str (invalid_transition_message (Order.Status o) to actor)) ∧
    match op with
    | update_order_status _ | pickup_order _ =>
        get (body (run (handler op) db).1) "valid_next_states" =
          Some (Strs (ValidTransitionsFrom (Order.Status o)))
    | _ =>
        ∀ key l, get (body (run (handler op) db).1) key ≠ Some (Strs l)
    end.
Proof.
  destruct op as [c | c | c | c | c | c]; cbn [handler target].
  - intros H. by apply PlaceOrder_never_invalid in H.
  - unfold UpdateOrderStatus, ShouldBindJSON, middleware.GetUserID. simpl.
    destruct (List.find _ (restaurants db)) as [r|]; simpl; [| intros H; not_denied H].
    destruct (orders db !! Param_id c) as [o|] eqn:Ho; simpl; [| intros H; not_denied H].
    destruct (bool_decide (Order.RestaurantID o = Restaurant.ID r));
      simpl; [| intros H; not_denied H].
    destruct (json c) as [req|]; simpl; [| intros H; not_denied H].
    destruct (UpdateOrderStatusRequest_valid req); simpl; [| intros H; not_denied H].
    destruct (CanTransition (Order.Status o) (upd_Status req) "restaurant")
      as [err|] eqn:Hv; simpl.
    + intros _. apply CanTransition_Some_inv in Hv as Hm. subst err.
      exists (Param_id c), o, (upd_Status req), "restaurant".
      unfold carries_current_status. simpl. auto 10.
    + unfold when. destruct (bool_decide (upd_Status req = StatusPreparing));
        simpl; intros H; not_denied H.
  - unfold CancelOrder, middleware.GetUserID. simpl.
    destruct (orders db !! Param_id c) as [o|] eqn:Ho; simpl; [| intros H; not_denied H].
    destruct (bool_decide (Order.CustomerID o = userID c));
      simpl; [| intros H; not_denied H].
    destruct (CanTransition (Order.Status o) StatusCancelled "customer")
      as [err|] eqn:Hv; simpl; [| intros H; not_denied H].
    intros _. apply CanTransition_Some_inv in Hv as Hm. subst err.
    exists (Param_id c), o, StatusCancelled, "customer".
    unfold carries_current_status. simpl. repeat split; auto.
    intros key l H. repeat case_bool_decide; discriminate.
  - unfold PickupOrder. simpl.
    destruct (orders db !! Param_id c) as [o|] eqn:Ho; simpl; [| intros H; not_denied H].
    destruct (Order.DriverID o); simpl; [intros H; not_denied H |].
    destruct (CanTransition (Order.Status o) StatusPickedUp "driver")
      as [err|] eqn:Hv; simpl; [| intros H; not_denied H].
    intros _. apply CanTransition_Some_inv in Hv as Hm. subst err.
    exists (Param_id c), o, StatusPickedUp, "driver".
    unfold carries_current_status. simpl. auto 10.
  - unfold DeliverOrder, middleware.GetUserID. simpl.
    destruct (orders db !! Param_id c) as [o|] eqn:Ho; simpl; [| intros H; not_denied H].
    destruct (_ || _); simpl; [intros H; not_denied H |].
    destruct (CanTransition (Order.Status o) StatusDelivered "driver")
      as [err|] eqn:Hv; simpl; [| intros H; not_denied H].
    intros _. apply CanTransition_Some_inv in Hv as Hm. subst err.
    exists (Param_id c), o, StatusDelivered, "driver".
    unfold carries_current_status. simpl. repeat split; auto.
    intros key l H. repeat case_bool_decide; discriminate.
  - intros H.
    destruct (AdminForceOrderStatus_outcomes c db) as [H' | [H' | H']];
      congruence.
Qed.

End Denials.

(** C8, as the code has it. Every invalid-transition denial (422) of a
    workflow operation leaves storage unchanged and carries the order's
    current status as a field of its own, together with a reason text
    that ends with the legal next statuses, separated by commas, or with
    a fixed phrase when there are none. The restaurant update and the
    driver pickup also carry the list [ValidTransitionsFrom] of the
    current status as the field [valid_next_states]; the customer cancel
    and the driver delivery carry no list at all. *)
Theorem invalid_transition_denial_detail (op : operation) (db : DB) :
  outcome_of (run (handler op) db).1 = InvalidTransition →
  ∃ id o to actor,
    target op = Some id ∧
    orders db !! id = Some o ∧
    (run (handler op) db).2 = db ∧
    carries_current_status (body (run (handler op) db).1) (Order.Status o) ∧
    get (body (run (handler op) db).1) "reason" =
      Some (Str (("invalid transition: " +:+ Order.Status o +:+ " → " +:+ to +:+
                  " is not allowed for actor '" +:+ actor +:+ "'. " +:+
                  "Valid transitions from " +:+ Order.Status o +:+ " are: ") +:+
                 match ValidTransitionsFrom (Order.Status o) with
                 | [] => "none (terminal state)"
                 | nexts => String.concat ", " nexts
                 end)) ∧
    match op with
    | update_order_status _ | pickup_order _ =>
        get (body (run (handler op) db).1) "valid_next_states" =
          Some (Strs (ValidTransitionsFrom (Order.Status o)))
    | _ =>
        ∀ key l, get (body (run (handler op) db).1) key ≠ Some (Strs l)
    end.
Proof.
  intros H.
  destruct (invalid_denial_detail op db H)
    as (id & o & to & actor & Ht & Ho & Hdb & _ & Hc & Hr & Hn).
  exists id, o, to, actor.
  rewrite <- describeValidFrom_spec, <- invalid_transition_message_ends.
  auto 10.
Qed.

(** The customer of order 1 asks to cancel it while it is being
    prepared. *)
Lemma invalid_transition_denial_detail_witness :
  ∃ id o to actor,
    target (cancel_order (on_order_1 3 None)) = Some id ∧
    orders db_preparing !! id = Some o ∧
    (run (handler (cancel_order (on_order_1 3 None))) db_preparing).2 = db_preparing ∧
    carries_current_status
      (body (run (handler (cancel_order (on_order_1 3 None))) db_preparing).1)
      (Order.Status o) ∧
    get (body (run (handler (cancel_order (on_order_1 3 None))) db_preparing).1)
        "reason" =
      Some (Str (("invalid transition: " +:+ Order.Status o +:+ " → " +:+ to +:+
                  " is not allowed for actor '" +:+ actor +:+ "'. " +:+
                  "Valid transitions from " +:+ Order.Status o +:+ " are: ") +:+
                 match ValidTransitionsFrom (Order.Status o) with
                 | [] => "none (terminal state)"
                 | nexts => String.concat ", " nexts
                 end)) ∧
    ∀ key l,
      get (body (run (handler (cancel_order (on_order_1 3 None))) db_preparing).1) key
        ≠ Some (Strs l).
Proof.
  apply (invalid_transition_denial_detail (cancel_order (on_order_1 3 None))
           db_preparing).
  vm_compute. reflexivity.
Defined.

(** The same request, read against C8 as it is worded: the answer is the
    invalid-transition denial, it names the current status, the legal
    next statuses of PREPARING are not empty, and no field of the body
    holds them. *)
Lemma cancel_denial_carries_no_next_statuses :
  outcome_of (run (handler (cancel_order (on_order_1 3 None))) db_preparing).1
    = InvalidTransition ∧
  body (run (handler (cancel_order (on_order_1 3 None))) db_preparing).1 =
    [("error", Str "Cannot cancel order");
     ("reason", Str "invalid transition: PREPARING → CANCELLED is not allowed for actor 'customer'. Valid transitions from PREPARING are: READY_FOR_PICKUP");
     ("current_state", Str StatusPreparing)] ∧
  ValidTransitionsFrom StatusPreparing = [StatusReadyForPickup] ∧
  ¬ carries_next_statuses
      (body (run (handler (cancel_order (on_order_1 3 None))) db_preparing).1)
      StatusPreparing.
Proof.
  split; [vm_compute; reflexivity |].
  split; [vm_compute; reflexivity |].
  split; [vm_compute; reflexivity |].
  intros [key H].
  assert (body (run (handler (cancel_order (on_order_1 3 None))) db_preparing).1 =
          [("error", Str "Cannot cancel order");
           ("reason", Str "invalid transition: PREPARING → CANCELLED is not allowed for actor 'customer'. Valid transitions from PREPARING are: READY_FOR_PICKUP");
           ("current_state", Str StatusPreparing)]) as Hb
    by (vm_compute; reflexivity).
  rewrite Hb in H. simpl in H. repeat case_bool_decide; discriminate.
Qed.

(** * Two pickup requests at once *)

Section Race.

Implicit Types (db : DB) (o : Order.t).

Lemma pickup_records_app db db' id (hs : list OrderStatusHistory.t) :
  histories db' = histories db ++ hs →
  pickup_records db' id =
    pickup_records db id ++
    filter (fun h => OrderStatusHistory.ToStatus h = StatusPickedUp)
      (filter (fun h => OrderStatusHistory.OrderID h = id) hs).
Proof.
  intros H. unfold pickup_records, History. by rewrite H, !filter_app.
Qed.

(** The first storage call of [PickupOrder] on a ready order without a
    driver: the order is read, both checks pass, and what is left of the
    handler is the write, the history row and the answer. Storage is as
    it was. *)
Lemma PickupOrder_first_step {B} (c : Context B) db o :
  orders db !! Param_id c = Some o →
  Order.Status o = StatusReadyForPickup →
  Order.DriverID o = None →
  step (PickupOrder c) db =
    (Do (UpdateOrder (Param_id c)
           [status_col StatusPickedUp; driver_id_col (userID c)])
        (fun _ =>
           Do (CreateHistory
                 (OrderStatusHistory.mk 0 (Param_id c) StatusReadyForPickup
                    StatusPickedUp (userID c) "Driver picked up the order"))
              (fun _ =>
                 Ret (JSON http.StatusOK
                        [("message", Str "Order picked up successfully");
                         ("order_id", Num (Param_id c));
                         ("status", Str StatusPickedUp)]))),
     db).
Proof.
  intros Ho Hs Hd. unfold PickupOrder, step. simpl. rewrite Ho. simpl.
  rewrite Hd, Hs. simpl. reflexivity.
Qed.

Lemma interleave_first {A} rest (p q : prog A) db :
  interleave (true :: rest) p q db =
    interleave rest (step p db).1 q (step p db).2.
Proof. reflexivity. Qed.

Lemma interleave_second {A} rest (p q : prog A) db :
  interleave (false :: rest) p q db =
    interleave rest p (step q db).1 (step q db).2.
Proof. reflexivity. Qed.

End Race.

(** C2, on the code. Two drivers ask for the same ready order that has
    no driver, and both handlers read the order before either writes.
    Both are answered 200; the pickup is written to the history twice;
    the order ends with the driver whose write came last. *)
Theorem concurrent_pickups_both_succeed {B : Type} (a b : Context B)
    (db : DB) (o : Order.t) :
  Param_id a = Param_id b →
  userID a ≠ userID b →
  orders db !! Param_id a = Some o →
  Order.Status o = StatusReadyForPickup →
  Order.DriverID o = None →
  ∃ ra rb db' o',
    interleave both_read_first (PickupOrder a) (PickupOrder b) db
      = (Ret ra, Ret rb, db') ∧
    outcome_of ra = Success ∧
    outcome_of rb = Success ∧
    histories db' =
      histories db ++
      [OrderStatusHistory.mk (S (length (histories db))) (Param_id a)
         StatusReadyForPickup StatusPickedUp (userID a)
         "Driver picked up the order";
       OrderStatusHistory.mk (S (S (length (histories db)))) (Param_id a)
         StatusReadyForPickup StatusPickedUp (userID b)
         "Driver picked up the order"] ∧
    length (pickup_records db' (Param_id a)) =
      2 + length (pickup_records db (Param_id a)) ∧
    orders db' !! Param_id a = Some o' ∧
    Order.Status o' = StatusPickedUp ∧
    Order.DriverID o' = Some (userID b).
Proof.
  intros Hid Hne Ho Hs Hd. unfold both_read_first.
  rewrite interleave_first, (PickupOrder_first_step a db o Ho Hs Hd).
  cbn [fst snd].
  rewrite interleave_second, (PickupOrder_first_step b db o) by congruence.
  cbn [fst snd interleave step exec]. rewrite <- Hid.
  eexists _, _, _, _. split; [reflexivity |].
  split; [reflexivity |]. split; [reflexivity |].
  cbn [histories orders]. split.
  { rewrite <- app_assoc. simpl. by rewrite length_app, Nat.add_1_r. }
  split.
  { erewrite pickup_records_app; [| cbn [histories]; by rewrite <- app_assoc].
    rewrite length_app. simpl.
    rewrite !(filter_cons_True _ _ _) by done. simpl. lia. }
  rewrite !lookup_alter_eq, Ho. simpl. done.
Qed.

(** Drivers 7 and 8 and the ready order 1. *)
Lemma concurrent_pickups_both_succeed_witness :
  ∃ ra rb db' o',
    interleave both_read_first
      (PickupOrder (on_order_1 7 (None : option unit)))
      (PickupOrder (on_order_1 8 (None : option unit))) db_ready
      = (Ret ra, Ret rb, db') ∧
    outcome_of ra = Success ∧
    outcome_of rb = Success ∧
    histories db' =
      trail_ready ++
      [OrderStatusHistory.mk 5 1 StatusReadyForPickup StatusPickedUp 7
         "Driver picked up the order";
       OrderStatusHistory.mk 6 1 StatusReadyForPickup StatusPickedUp 8
         "Driver picked up the order"] ∧
    length (pickup_records db' 1) = 2 + length (pickup_records db_ready 1) ∧
    orders db' !! 1 = Some o' ∧
    Order.Status o' = StatusPickedUp ∧
    Order.DriverID o' = Some 8.
Proof.
  apply (concurrent_pickups_both_succeed
           (on_order_1 7 (None : option unit)) (on_order_1 8 (None : option unit))
           db_ready (sample_order StatusReadyForPickup None 20));
    [reflexivity | simpl; lia | vm_compute; reflexivity | reflexivity | reflexivity].
Defined.

(** X3. Served one after the other, the same two requests end as the
    pickup is meant to: the first driver gets the order, the second is
    answered Conflict, and the pickup is in the history once. *)
Theorem pickups_one_after_the_other {B : Type} (a b : Context B)
    (db : DB) (o : Order.t) :
  Param_id a = Param_id b →
  orders db !! Param_id a = Some o →
  Order.Status o = StatusReadyForPickup →
  Order.DriverID o = None →
  ∃ ra rb db' o',
    interleave one_after_the_other (PickupOrder a) (PickupOrder b) db
      = (Ret ra, Ret rb, db') ∧
    run (PickupOrder b) (run (PickupOrder a) db).2 = (rb, db') ∧
    outcome_of ra = Success ∧
    outcome_of rb = Conflict ∧
    histories db' =
      histories db ++
      [OrderStatusHistory.mk (S (length (histories db))) (Param_id a)
         StatusReadyForPickup StatusPickedUp (userID a)
         "Driver picked up the order"] ∧
    orders db' !! Param_id a = Some o' ∧
    Order.Status o' = StatusPickedUp ∧
    Order.DriverID o' = Some (userID a).
Proof.
  intros Hid Ho Hs Hd. unfold one_after_the_other.
  rewrite interleave_first, (PickupOrder_first_step a db o Ho Hs Hd).
  cbn [fst snd].
  rewrite !interleave_first. cbn [fst snd step exec].
  rewrite interleave_second.
  set (db1 := mkDB _ _ _ _ _).
  assert (orders db1 !! Param_id b =
          Some (foldl set_column o
                  [status_col StatusPickedUp; driver_id_col (userID a)])) as Ho1.
  { unfold db1. cbn [orders]. by rewrite <- Hid, lookup_alter_eq, Ho. }
  assert (run (PickupOrder a) db = 
          (JSON http.StatusOK
             [("message", Str "Order picked up successfully");
              ("order_id", Num (Param_id a));
              ("status", Str StatusPickedUp)], db1)) as Hrun.
  { unfold PickupOrder. simpl. rewrite Ho. simpl. rewrite Hd, Hs. reflexivity. }
  assert (histories db1 =
          histories db ++
          [OrderStatusHistory.mk (S (length (histories db))) (Param_id a)
             StatusReadyForPickup StatusPickedUp (userID a)
             "Driver picked up the order"]) as Hh1 by reflexivity.
  clearbody db1.
  pose proof (PickupOrder_assigned b db1 _ (userID a) Ho1 eq_refl) as Hb.
  assert (step (PickupOrder b) db1 =
          (Ret (JSON http.StatusConflict
                  [("error", Str "Order has already been picked up by another driver")]),
           db1)) as Hstep.
  { unfold PickupOrder, step. simpl. rewrite Ho1. reflexivity. }
  rewrite Hstep. cbn [fst snd interleave step].
  eexists _, _, _, _. split; [reflexivity |].
  rewrite Hrun. cbn [snd]. split; [exact Hb |].
  split; [reflexivity |]. split; [reflexivity |].
  split; [exact Hh1 |].
  rewrite Hid, Ho1. simpl. done.
Qed.

Lemma pickups_one_after_the_other_witness :
  ∃ ra rb db' o',
    interleave one_after_the_other
      (PickupOrder (on_order_1 7 (None : option unit)))
      (PickupOrder (on_order_1 8 (None : option unit))) db_ready
      = (Ret ra, Ret rb, db') ∧
    run (PickupOrder (on_order_1 8 (None : option unit)))
        (run (PickupOrder (on_order_1 7 (None : option unit))) db_ready).2
      = (rb, db') ∧
    outcome_of ra = Success ∧
    outcome_of rb = Conflict ∧
    histories db' = trail_picked_up ∧
    orders db' !! 1 = Some o' ∧
    Order.Status o' = StatusPickedUp ∧
    Order.DriverID o' = Some 7.
Proof.
  apply (pickups_one_after_the_other
           (on_order_1 7 (None : option unit)) (on_order_1 8 (None : option unit))
           db_ready (sample_order StatusReadyForPickup None 20));
    [reflexivity | vm_compute; reflexivity | reflexivity | reflexivity].
Defined.

(** * Walks through the transition table *)

Section Walks.

Implicit Types (s from to : OrderStatus) (l : list OrderStatus).

Lemma table_rank_increases :
  Forall (fun t => rank (From t) < rank (To t)) validTransitions.
Proof. unfold validTransitions. repeat constructor; vm_compute; lia. Qed.

Lemma may_move_rank from to : may_move from to → rank from < rank to.
Proof.
  intros [actor H]. apply CanTransition_None in H.
  pose proof table_rank_increases as Hall. rewrite Forall_forall in Hall.
  apply (Hall _ H).
Qed.

Lemma rank_bound s : rank s ≤ 5.
Proof. unfold rank. repeat case_decide; lia. Qed.

Lemma legal_walk_tail s l : legal_walk (s :: l) → legal_walk l.
Proof. destruct l as [|t l]; [done |]. by intros [_ H]. Qed.

Lemma legal_walk_later l : ∀ s,
  legal_walk (s :: l) → Forall (fun x => rank s < rank x) l.
Proof.
  induction l as [|t l IH]; intros s Hw; [constructor |].
  destruct Hw as [Hm Hw]. apply may_move_rank in Hm.
  constructor; [done |].
  eapply Forall_impl; [apply (IH t Hw) |]. intros x Hx. simpl in Hx. lia.
Qed.

Lemma legal_walk_length l : ∀ s,
  legal_walk (s :: l) → length (s :: l) + rank s ≤ 6.
Proof.
  induction l as [|t l IH]; intros s Hw.
  - pose proof (rank_bound s). simpl. lia.
  - destruct Hw as [Hm Hw]. apply may_move_rank in Hm.
    specialize (IH t Hw). simpl in *. lia.
Qed.

Lemma may_move_next from to :
  may_move from to ↔ to ∈ ValidTransitionsFrom from.
Proof.
  rewrite ValidTransitionsFrom_spec. unfold may_move.
  split; intros [actor H]; exists actor; by apply CanTransition_None.
Qed.

Lemma cancel_sources s :
  may_move s StatusCancelled → s = StatusPlaced ∨ s = StatusConfirmed.
Proof.
  intros [actor H]. apply CanTransition_None in H.
  unfold validTransitions in H.
  repeat (apply elem_of_cons in H as [H | H];
          [first [discriminate H | injection H as -> _; auto] |]).
  by apply elem_of_nil in H.
Qed.

(** Nothing follows a terminal status in a walk. *)
Lemma legal_walk_stops s l :
  ValidTransitionsFrom s = [] → legal_walk (s :: l) → l = [].
Proof.
  intros Hnone Hw. destruct l as [|t l]; [done |].
  destruct Hw as [Hm _]. apply may_move_next in Hm.
  rewrite Hnone in Hm. by apply elem_of_nil in Hm.
Qed.

(** What can follow a status in a walk is one of its next statuses. *)
Lemma legal_walk_next s t l nexts :
  ValidTransitionsFrom s = nexts →
  legal_walk (s :: t :: l) → t ∈ nexts ∧ legal_walk (t :: l).
Proof.
  intros <- [Hm Hw]. split; [by apply may_move_next | done].
Qed.

End Walks.

(** X4. The workflow has no cycle and no long way round: in a list of
    statuses in which each follows the one before it by a move of the
    table (for whichever actor), no status occurs twice and there are
    at most six statuses, that is five moves. *)
Theorem workflow_walks_are_short (l : list OrderStatus) :
  legal_walk l → NoDup l ∧ length l ≤ 6.
Proof.
  intros Hw. split.
  - induction l as [|s l IH]; [constructor |].
    constructor; [| by apply IH, (legal_walk_tail s)].
    intros Hin. pose proof (legal_walk_later l s Hw) as Hall.
    rewrite Forall_forall in Hall. specialize (Hall s Hin). lia.
  - destruct l as [|s l]; [simpl; lia |].
    pose proof (legal_walk_length l s Hw). lia.
Qed.

(** The longest walk: from PLACED to DELIVERED. *)
Lemma workflow_walks_are_short_witness :
  NoDup [StatusPlaced; StatusConfirmed; StatusPreparing; StatusReadyForPickup;
         StatusPickedUp; StatusDelivered] ∧
  length [StatusPlaced; StatusConfirmed; StatusPreparing; StatusReadyForPickup;
          StatusPickedUp; StatusDelivered] ≤ 6.
Proof.
  apply workflow_walks_are_short. simpl.
  repeat split;
    first [ by exists "restaurant"; vm_compute
          | by exists "driver"; vm_compute ].
Defined.

(** X5. No status can be skipped and a late order cannot be cancelled:
    a walk that starts at PLACED and ends at DELIVERED is the one chain
    through CONFIRMED, PREPARING, READY_FOR_PICKUP and PICKED_UP, and in
    a walk that ends at CANCELLED the status before last is PLACED or
    CONFIRMED. *)
Theorem no_status_skipped (l : list OrderStatus) :
  legal_walk l →
  (head l = Some StatusPlaced → last l = Some StatusDelivered →
   l = [StatusPlaced; StatusConfirmed; StatusPreparing; StatusReadyForPickup;
        StatusPickedUp; StatusDelivered]) ∧
  (∀ before s, l = before ++ [s; StatusCancelled] →
               s = StatusPlaced ∨ s = StatusConfirmed).
Proof.
  intros Hw. split.
  - intros Hh Hl.
    destruct l as [|s0 l]; [done |]. injection Hh as ->.
    destruct l as [|s1 l]; [done |].
    apply (legal_walk_next _ _ _ [StatusConfirmed; StatusCancelled]) in Hw
      as [Hin Hw]; [| by vm_compute].
    apply elem_of_cons in Hin as [-> | Hin].
    2: { apply list_elem_of_singleton in Hin as ->.
         apply legal_walk_stops in Hw as ->; [done | by vm_compute]. }
    destruct l as [|s2 l]; [done |].
    apply (legal_walk_next _ _ _ [StatusPreparing; StatusCancelled]) in Hw
      as [Hin Hw]; [| by vm_compute].
    apply elem_of_cons in Hin as [-> | Hin].
    2: { apply list_elem_of_singleton in Hin as ->.
         apply legal_walk_stops in Hw as ->; [done | by vm_compute]. }
    destruct l as [|s3 l]; [done |].
    apply (legal_walk_next _ _ _ [StatusReadyForPickup]) in Hw
      as [Hin Hw]; [| by vm_compute].
    apply list_elem_of_singleton in Hin as ->.
    destruct l as [|s4 l]; [done |].
    apply (legal_walk_next _ _ _ [StatusPickedUp]) in Hw
      as [Hin Hw]; [| by vm_compute].
    apply list_elem_of_singleton in Hin as ->.
    destruct l as [|s5 l]; [done |].
    apply (legal_walk_next _ _ _ [StatusDelivered]) in Hw
      as [Hin Hw]; [| by vm_compute].
    apply list_elem_of_singleton in Hin as ->.
    apply legal_walk_stops in Hw as ->; [done | by vm_compute].
  - intros before s ->. apply cancel_sources.
    induction before as [|x before IH]; [by destruct Hw |].
    apply IH. by apply (legal_walk_tail x).
Qed.

(** The walk PLACED, CONFIRMED, CANCELLED. *)
Lemma no_status_skipped_witness :
  StatusConfirmed = StatusPlaced ∨ StatusConfirmed = StatusConfirmed.
Proof.
  refine (proj2 (no_status_skipped
                   [StatusPlaced; StatusConfirmed; StatusCancelled] _)
                [StatusPlaced] StatusConfirmed eq_refl).
  simpl. split; [by exists "restaurant"; vm_compute |].
  split; [by exists "customer"; vm_compute | exact I].
Defined.

(** * Requests that are refused *)

(** X6. A request that is not answered with success has changed nothing
    in storage, whichever of the six operations it is. *)
Theorem failed_request_changes_nothing (op : operation) (db : DB) :
  outcome_of (run (handler op) db).1 ≠ Success →
  (run (handler op) db).2 = db.
Proof.
  intros Hno. by destruct (refused_changes_nothing op db) as [Hok | Hdb].
Qed.

(** The customer of order 1 asks to cancel it after delivery. *)
Lemma failed_request_changes_nothing_witness :
  (run (handler (cancel_order (on_order_1 3 None))) db_delivered).2 = db_delivered.
Proof.
  apply (failed_request_changes_nothing (cancel_order (on_order_1 3 None))
           db_delivered).
  vm_compute. discriminate.
Defined.

(** X7. A request that names an order that does not exist changes
    nothing; the four workflow operations answer it 404, and the admin
    override answers it 404 unless its body does not bind, which it
    reports first, with 400. *)
Theorem missing_order_is_not_found (op : operation) (db : DB) (id : nat) :
  target op = Some id →
  orders db !! id = None →
  (run (handler op) db).2 = db ∧
  (is_override op = false →
   outcome_of (run (handler op) db).1 = NotFound) ∧
  (outcome_of (run (handler op) db).1 = NotFound ∨
   outcome_of (run (handler op) db).1 = BadRequest).
Proof.
  intros Ht Ho.
  destruct op as [c | c | c | c | c | c]; try discriminate;
    injection Ht as <-; cbn [handler is_override].
  - unfold UpdateOrderStatus. simpl.
    destruct (List.find _ (restaurants db)) as [r|]; simpl; [| auto].
    rewrite Ho. simpl. auto.
  - unfold CancelOrder. simpl. rewrite Ho. simpl. auto.
  - unfold PickupOrder. simpl. rewrite Ho. simpl. auto.
  - unfold DeliverOrder. simpl. rewrite Ho. simpl. auto.
  - unfold AdminForceOrderStatus.
    destruct (ShouldBindJSON _ c); simpl; [rewrite Ho; simpl |];
      (split; [done |]; split; [done | auto]).
Qed.

(** Driver 7 asks for order 5 of a store that has only order 1. *)
Lemma missing_order_is_not_found_witness :
  (run (handler (pickup_order (mkContext unit 7 5 None))) db_ready).2 = db_ready ∧
  outcome_of (run (handler (pickup_order (mkContext unit 7 5 None))) db_ready).1
    = NotFound.
Proof.
  destruct (missing_order_is_not_found
              (pickup_order (mkContext unit 7 5 None)) db_ready 5)
    as (H1 & H2 & _); [reflexivity | vm_compute; reflexivity |].
  split; [exact H1 | by apply H2].
Defined.

(** X8. Orders are guarded by their owner. A customer who asks to cancel
    an order placed by someone else, and a restaurant owner who asks to
    update an order of another restaurant, are answered 403 and nothing
    changes; this is decided before the state machine is asked and, for
    the restaurant, before the body is read. *)
Theorem foreign_order_is_forbidden (db : DB) (o : Order.t) :
  (∀ (c : Context unit),
     orders db !! Param_id c = Some o →
     Order.CustomerID o ≠ userID c →
     outcome_of (run (CancelOrder c) db).1 = Forbidden ∧
     (run (CancelOrder c) db).2 = db) ∧
  (∀ (c : Context UpdateOrderStatusRequest) r,
     (exec (FirstRestaurantWhereOwner (userID c)) db).1 = Some r →
     orders db !! Param_id c = Some o →
     Order.RestaurantID o ≠ Restaurant.ID r →
     outcome_of (run (UpdateOrderStatus c) db).1 = Forbidden ∧
     (run (UpdateOrderStatus c) db).2 = db).
Proof.
  split.
  - intros c Ho Hne. unfold CancelOrder, middleware.GetUserID. simpl.
    rewrite Ho. simpl. by rewrite bool_decide_eq_false_2.
  - intros c r Hr Ho Hne. unfold UpdateOrderStatus, middleware.GetUserID.
    simpl in *. rewrite Hr. simpl. rewrite Ho. simpl.
    by rewrite bool_decide_eq_false_2.
Qed.

(** User 4, who is not the customer of order 1, asks to cancel it while
    it could still be cancelled. *)
Lemma foreign_order_is_forbidden_witness :
  CanTransition StatusPlaced StatusCancelled "customer" = None ∧
  outcome_of (run (CancelOrder (on_order_1 4 (None : option unit))) db_placed).1
    = Forbidden ∧
  (run (CancelOrder (on_order_1 4 (None : option unit))) db_placed).2 = db_placed.
Proof.
  split; [by vm_compute |].
  apply (proj1 (foreign_order_is_forbidden db_placed
                  (sample_order StatusPlaced None 35))
               (on_order_1 4 None));
    [vm_compute; reflexivity | simpl; lia].
Defined.

(** * When each workflow request succeeds *)

Section Moves.

Implicit Types (from to : OrderStatus).

(** Turns membership of a triple with a known actor in the table into
    the cases of the rows with that actor. *)
Ltac table_rows H :=
  apply CanTransition_None in H; unfold validTransitions in H;
  repeat (apply elem_of_cons in H as [H | H];
          [first [discriminate H | injection H as -> ->; auto 10] |]);
  by apply elem_of_nil in H.

Lemma driver_moves from to :
  CanTransition from to "driver" = None ↔
  (from = StatusReadyForPickup ∧ to = StatusPickedUp) ∨
  (from = StatusPickedUp ∧ to = StatusDelivered).
Proof.
  split; [intros H; table_rows H |].
  intros [[-> ->] | [-> ->]]; by vm_compute.
Qed.

Lemma customer_moves from to :
  CanTransition from to "customer" = None ↔
  (from = StatusPlaced ∨ from = StatusConfirmed) ∧ to = StatusCancelled.
Proof.
  split; [intros H; table_rows H |].
  intros [[-> | ->] ->]; by vm_compute.
Qed.

Lemma restaurant_moves from to :
  CanTransition from to "restaurant" = None ↔
  (from = StatusPlaced ∧ (to = StatusConfirmed ∨ to = StatusCancelled)) ∨
  (from = StatusConfirmed ∧ (to = StatusPreparing ∨ to = StatusCancelled)) ∨
  (from = StatusPreparing ∧ to = StatusReadyForPickup).
Proof.
  split; [intros H; table_rows H |].
  intros [[-> [-> | ->]] | [[-> [-> | ->]] | [-> ->]]]; by vm_compute.
Qed.

End Moves.

(** X9. [PickupOrder] succeeds exactly on an order that exists, has no
    driver and is READY_FOR_PICKUP. It then leaves that order PICKED_UP
    with the caller as its driver, its other columns as they were, and
    every other order untouched. *)
Theorem pickup_succeeds_exactly_when {B : Type} (c : Context B) (db : DB) :
  (outcome_of (run (PickupOrder c) db).1 = Success ↔
   ∃ o, orders db !! Param_id c = Some o ∧
        Order.DriverID o = None ∧
        Order.Status o = StatusReadyForPickup) ∧
  (∀ o, orders db !! Param_id c = Some o →
        outcome_of (run (PickupOrder c) db).1 = Success →
        orders (run (PickupOrder c) db).2 !! Param_id c =
          Some (Order.mk (Order.ID o) (Order.CustomerID o) (Order.RestaurantID o)
                  (Some (userID c)) StatusPickedUp (Order.DeliveryAddress o)
                  (Order.Notes o) (Order.EstimatedTime o) (Order.Items o)) ∧
        ∀ id, id ≠ Param_id c →
              orders (run (PickupOrder c) db).2 !! id = orders db !! id).
Proof.
  split; [split |].
  - intros H. destruct (PickupOrder_success c db H) as (o & Ho & Hd & Hv & _).
    exists o. apply driver_moves in Hv as [[Hs _] | [_ Hs]]; [done | discriminate].
  - intros (o & Ho & Hd & Hs). unfold PickupOrder. simpl. rewrite Ho. simpl.
    by rewrite Hd, Hs.
  - intros o Ho H. destruct (PickupOrder_success c db H) as (o' & Ho' & _ & _ & ->).
    assert (o' = o) as -> by congruence. cbn [orders]. split.
    + by rewrite lookup_alter_eq, Ho.
    + intros id Hne. by rewrite lookup_alter_ne.
Qed.

(** Driver 7 picks up the ready order 1. *)
Lemma pickup_succeeds_exactly_when_witness :
  orders (run (PickupOrder (on_order_1 7 (None : option unit))) db_ready).2 !! 1 =
    Some (sample_order StatusPickedUp (Some 7) 20).
Proof.
  refine (proj1 (proj2 (pickup_succeeds_exactly_when
                          (on_order_1 7 (None : option unit)) db_ready)
                       (sample_order StatusReadyForPickup None 20) _ _));
    vm_compute; reflexivity.
Defined.

(** X10. [DeliverOrder] succeeds exactly on an order that exists, has the
    caller as its driver and is PICKED_UP. It then leaves that order
    DELIVERED, its driver and other columns as they were, and every
    other order untouched. *)
Theorem deliver_succeeds_exactly_when {B : Type} (c : Context B) (db : DB) :
  (outcome_of (run (DeliverOrder c) db).1 = Success ↔
   ∃ o, orders db !! Param_id c = Some o ∧
        Order.DriverID o = Some (userID c) ∧
        Order.Status o = StatusPickedUp) ∧
  (∀ o, orders db !! Param_id c = Some o →
        outcome_of (run (DeliverOrder c) db).1 = Success →
        orders (run (DeliverOrder c) db).2 !! Param_id c =
          Some (Order.mk (Order.ID o) (Order.CustomerID o) (Order.RestaurantID o)
                  (Order.DriverID o) StatusDelivered (Order.DeliveryAddress o)
                  (Order.Notes o) (Order.EstimatedTime o) (Order.Items o)) ∧
        ∀ id, id ≠ Param_id c →
              orders (run (DeliverOrder c) db).2 !! id = orders db !! id).
Proof.
  split; [split |].
  - intros H. destruct (DeliverOrder_success c db H) as (o & Ho & Hd & Hv & _).
    exists o. apply driver_moves in Hv as [[_ Hs] | [Hs _]]; [discriminate | done].
  - intros (o & Ho & Hd & Hs). unfold DeliverOrder, middleware.GetUserID. simpl.
    rewrite Ho. simpl. rewrite Hd, Hs. simpl.
    by rewrite bool_decide_eq_true_2.
  - intros o Ho H. destruct (DeliverOrder_success c db H) as (o' & Ho' & _ & _ & ->).
    assert (o' = o) as -> by congruence. cbn [orders]. split.
    + by rewrite lookup_alter_eq, Ho.
    + intros id Hne. by rewrite lookup_alter_ne.
Qed.

(** Driver 7 delivers order 1, which they picked up. *)
Lemma deliver_succeeds_exactly_when_witness :
  orders (run (DeliverOrder (on_order_1 7 (None : option unit))) db_picked_up).2 !! 1 =
    Some (sample_order StatusDelivered (Some 7) 20).
Proof.
  refine (proj1 (proj2 (deliver_succeeds_exactly_when
                          (on_order_1 7 (None : option unit)) db_picked_up)
                       (sample_order StatusPickedUp (Some 7) 20) _ _));
    vm_compute; reflexivity.
Defined.

(** X11. [CancelOrder] succeeds exactly on an order that exists, was
    placed by the caller and is PLACED or CONFIRMED. It then leaves that
    order CANCELLED, its other columns as they were, and every other
    order untouched. *)
Theorem cancel_succeeds_exactly_when {B : Type} (c : Context B) (db : DB) :
  (outcome_of (run (CancelOrder c) db).1 = Success ↔
   ∃ o, orders db !! Param_id c = Some o ∧
        Order.CustomerID o = userID c ∧
        (Order.Status o = StatusPlaced ∨ Order.Status o = StatusConfirmed)) ∧
  (∀ o, orders db !! Param_id c = Some o →
        outcome_of (run (CancelOrder c) db).1 = Success →
        orders (run (CancelOrder c) db).2 !! Param_id c =
          Some (Order.mk (Order.ID o) (Order.CustomerID o) (Order.RestaurantID o)
                  (Order.DriverID o) StatusCancelled (Order.DeliveryAddress o)
                  (Order.Notes o) (Order.EstimatedTime o) (Order.Items o)) ∧
        ∀ id, id ≠ Param_id c →
              orders (run (CancelOrder c) db).2 !! id = orders db !! id).
Proof.
  split; [split |].
  - intros H. destruct (CancelOrder_success c db H) as (o & Ho & Hc & Hv & _).
    exists o. by apply customer_moves in Hv as [Hs _].
  - intros (o & Ho & Hc & Hs). unfold CancelOrder, middleware.GetUserID. simpl.
    rewrite Ho. simpl. rewrite bool_decide_eq_true_2 by done. simpl.
    by rewrite (proj2 (customer_moves (Order.Status o) StatusCancelled)).
  - intros o Ho H. destruct (CancelOrder_success c db H) as (o' & Ho' & _ & _ & ->).
    assert (o' = o) as -> by congruence. cbn [orders]. split.
    + by rewrite lookup_alter_eq, Ho.
    + intros id Hne. by rewrite lookup_alter_ne.
Qed.

(** The customer of order 1 cancels it right after placing it. *)
Lemma cancel_succeeds_exactly_when_witness :
  orders (run (CancelOrder (on_order_1 3 (None : option unit))) db_placed).2 !! 1 =
    Some (sample_order StatusCancelled None 35).
Proof.
  refine (proj1 (proj2 (cancel_succeeds_exactly_when
                          (on_order_1 3 (None : option unit)) db_placed)
                       (sample_order StatusPlaced None 35) _ _));
    vm_compute; reflexivity.
Defined.

(** A response that is not 200 or 201 is not a success. *)
Ltac not_served H :=
  apply outcome_Success in H; simpl in H; destruct H as [H | H]; discriminate H.

(** X12. [UpdateOrderStatus] succeeds exactly when the caller owns a
    restaurant, the order exists and belongs to that restaurant, the
    body binds, and the requested status is a restaurant's move from the
    current one: PLACED to CONFIRMED or CANCELLED, CONFIRMED to PREPARING
    or CANCELLED, PREPARING to READY_FOR_PICKUP. It then writes the
    requested status, sets the estimated time to 20 when that status is
    PREPARING and leaves it alone otherwise, and touches no other column
    and no other order. *)
Theorem update_status_succeeds_exactly_when
    (c : Context UpdateOrderStatusRequest) (db : DB) :
  (outcome_of (run (UpdateOrderStatus c) db).1 = Success ↔
   ∃ r o req,
     (exec (FirstRestaurantWhereOwner (userID c)) db).1 = Some r ∧
     orders db !! Param_id c = Some o ∧
     Order.RestaurantID o = Restaurant.ID r ∧
     json c = Some req ∧
     ((Order.Status o = StatusPlaced ∧
       (upd_Status req = StatusConfirmed ∨ upd_Status req = StatusCancelled)) ∨
      (Order.Status o = StatusConfirmed ∧
       (upd_Status req = StatusPreparing ∨ upd_Status req = StatusCancelled)) ∨
      (Order.Status o = StatusPreparing ∧
       upd_Status req = StatusReadyForPickup))) ∧
  (∀ o req,
     orders db !! Param_id c = Some o →
     json c = Some req →
     outcome_of (run (UpdateOrderStatus c) db).1 = Success →
     orders (run (UpdateOrderStatus c) db).2 !! Param_id c =
       Some (Order.mk (Order.ID o) (Order.CustomerID o) (Order.RestaurantID o)
               (Order.DriverID o) (upd_Status req) (Order.DeliveryAddress o)
               (Order.Notes o)
               (if bool_decide (upd_Status req = StatusPreparing) then 20%Z
                else Order.EstimatedTime o)
               (Order.Items o)) ∧
     ∀ id, id ≠ Param_id c →
           orders (run (UpdateOrderStatus c) db).2 !! id = orders db !! id).
Proof.
  split; [split |].
  - unfold UpdateOrderStatus, ShouldBindJSON, middleware.GetUserID. simpl.
    destruct (List.find _ (restaurants db)) as [r|]; simpl; [| intros H; not_served H].
    destruct (orders db !! Param_id c) as [o|] eqn:Ho; simpl; [| intros H; not_served H].
    destruct (bool_decide_reflect (Order.RestaurantID o = Restaurant.ID r));
      simpl; [| intros H; not_served H].
    destruct (json c) as [req|]; simpl; [| intros H; not_served H].
    destruct (UpdateOrderStatusRequest_valid req); simpl; [| intros H; not_served H].
    destruct (CanTransition (Order.Status o) (upd_Status req) "restaurant") eqn:Hv;
      simpl; [intros H; not_served H |].
    intros _. exists r, o, req. apply restaurant_moves in Hv. auto.
  - intros (r & o & req & Hr & Ho & Hown & Hj & Hmove).
    apply restaurant_moves in Hmove as Hv.
    assert (upd_Status req ≠ "") as Hne.
    { intros He. rewrite He in Hmove.
      destruct Hmove as [[_ [H | H]] | [[_ [H | H]] | [_ H]]]; discriminate H. }
    unfold UpdateOrderStatus, ShouldBindJSON, middleware.GetUserID.
    simpl in *. rewrite Hr. simpl. rewrite Ho. simpl.
    rewrite bool_decide_eq_true_2 by done. simpl. rewrite Hj.
    unfold UpdateOrderStatusRequest_valid.
    rewrite (bool_decide_eq_false_2 _ Hne). simpl. rewrite Hv. simpl.
    unfold when. by destruct (bool_decide (upd_Status req = StatusPreparing)).
  - intros o req Ho Hj H.
    destruct (UpdateOrderStatus_success c db H) as (o' & req' & Ho' & Hj' & _ & ->).
    assert (o' = o) as -> by congruence. assert (req' = req) as -> by congruence.
    cbn [orders]. split.
    + case_bool_decide; by rewrite ?lookup_alter_eq, Ho.
    + intros id Hne. case_bool_decide; by rewrite ?lookup_alter_ne.
Qed.

(** The prepared order 1: confirmed, then handed to the kitchen. *)
Lemma update_status_succeeds_exactly_when_witness :
  orders (run (UpdateOrderStatus
                 (on_order_1 2 (Some (mkUpdateOrderStatusRequest StatusPreparing ""))))
              (serve_all [confirm_order_1] db_placed)).2 !! 1 =
    Some (sample_order StatusPreparing None 20).
Proof.
  refine (proj1 (proj2 (update_status_succeeds_exactly_when
                          (on_order_1 2 (Some (mkUpdateOrderStatusRequest
                                                 StatusPreparing "")))
                          (serve_all [confirm_order_1] db_placed))
                       (sample_order StatusConfirmed None 35)
                       (mkUpdateOrderStatusRequest StatusPreparing "") _ _ _));
    vm_compute; reflexivity.
Defined.

(** * Placing an order *)

Section Placing.

Implicit Types (db : DB) (items : list PlaceOrderItem).

(** One round of the loop: it goes on with one more item, or answers 400
    and writes nothing. *)
Lemma PlaceOrder_items_round db restaurantID k it items orderItems :
  match item_snapshot db restaurantID it with
  | Some oi =>
      run (PlaceOrder_items restaurantID (it :: items) orderItems k) db =
        run (PlaceOrder_items restaurantID items (orderItems ++ [oi]) k) db
  | None =>
      code (run (PlaceOrder_items restaurantID (it :: items) orderItems k) db).1
        = http.StatusBadRequest ∧
      (run (PlaceOrder_items restaurantID (it :: items) orderItems k) db).2 = db
  end.
Proof.
  unfold item_snapshot. simpl.
  destruct (menu_items db !! item_MenuItemID it) as [m|]; simpl; [| done].
  destruct (bool_decide (MenuItem.RestaurantID m = restaurantID));
    simpl; [| done].
  by destruct (MenuItem.IsAvailable m).
Qed.

(** If every round builds its item, the rest of the handler gets the
    items built, in the order requested, after those it started with;
    if some round does not, the answer is 400 and nothing is written. *)
Lemma PlaceOrder_items_built db restaurantID k items : ∀ orderItems built,
  mapM (item_snapshot db restaurantID) items = Some built →
  run (PlaceOrder_items restaurantID items orderItems k) db =
    run (k (orderItems ++ built)) db.
Proof.
  induction items as [|it items IH]; intros orderItems built.
  - intros [= <-]. simpl. by rewrite app_nil_r.
  - pose proof (PlaceOrder_items_round db restaurantID k it items orderItems) as Hr.
    cbn - [item_snapshot PlaceOrder_items run].
    destruct (item_snapshot db restaurantID it) as [oi|]; [| done].
    destruct (mapM (item_snapshot db restaurantID) items) as [rest|] eqn:Hrest;
      cbn - [PlaceOrder_items run]; [| done].
    intros [= <-]. rewrite Hr, (IH _ rest eq_refl). by rewrite <- app_assoc.
Qed.

Lemma PlaceOrder_items_refused db restaurantID k items : ∀ orderItems,
  mapM (item_snapshot db restaurantID) items = None →
  code (run (PlaceOrder_items restaurantID items orderItems k) db).1
    = http.StatusBadRequest ∧
  (run (PlaceOrder_items restaurantID items orderItems k) db).2 = db.
Proof.
  induction items as [|it items IH]; intros orderItems; [done |].
  pose proof (PlaceOrder_items_round db restaurantID k it items orderItems) as Hr.
  cbn - [item_snapshot PlaceOrder_items run].
  destruct (item_snapshot db restaurantID it) as [oi|]; [| done].
  destruct (mapM (item_snapshot db restaurantID) items) as [rest|] eqn:Hrest;
    cbn - [PlaceOrder_items run]; [done |].
  intros _. rewrite Hr. by apply IH.
Qed.

End Placing.

(** X13. [PlaceOrder] succeeds exactly when the body binds (restaurant
    id, address and at least one item), the restaurant exists and is
    open, and every requested item is on the menu, belongs to that
    restaurant and is available. It then stores one new order under the
    next order id: PLACED, without a driver, for the caller, with one
    item per requested item in the order requested, and with 30 minutes
    plus 5 per requested item as its estimated time; it adds the first
    history row and touches no other order. *)
Theorem place_order_succeeds_exactly_when
    (c : Context PlaceOrderRequest) (db : DB) :
  (outcome_of (run (PlaceOrder c) db).1 = Success ↔
   ∃ req r built,
     json c = Some req ∧
     PlaceOrderRequest_valid req = true ∧
     (exec (FirstRestaurant (req_RestaurantID req)) db).1 = Some r ∧
     Restaurant.IsOpen r = true ∧
     mapM (item_snapshot db (req_RestaurantID req)) (req_Items req) = Some built) ∧
  (∀ req built,
     json c = Some req →
     mapM (item_snapshot db (req_RestaurantID req)) (req_Items req) = Some built →
     outcome_of (run (PlaceOrder c) db).1 = Success →
     code (run (PlaceOrder c) db).1 = http.StatusCreated ∧
     (run (PlaceOrder c) db).2 =
       mkDB (<[S (order_seq db) :=
                 Order.mk (S (order_seq db)) (userID c) (req_RestaurantID req) None
                   StatusPlaced (req_DeliveryAddress req) (req_Notes req)
                   (30 + 5 * Z.of_nat (length (req_Items req)))%Z built]>
               (orders db))
            (S (order_seq db)) (restaurants db) (menu_items db)
            (histories db ++
             [OrderStatusHistory.mk (S (length (histories db))) (S (order_seq db))
                "" StatusPlaced (userID c) "Order placed by customer"]) ∧
     length built = length (req_Items req)).
Proof.
  assert (∀ req, json c = Some req →
            PlaceOrderRequest_valid req = true →
            ∀ r, (exec (FirstRestaurant (req_RestaurantID req)) db).1 = Some r →
            Restaurant.IsOpen r = true →
            ∀ built,
              mapM (item_snapshot db (req_RestaurantID req)) (req_Items req)
                = Some built →
              run (PlaceOrder c) db =
                (JSON http.StatusCreated
                   [("message", Str "Order placed successfully");
                    ("order",
                     OrderJSON
                       (Order.mk (S (order_seq db)) (userID c) (req_RestaurantID req)
                          None StatusPlaced (req_DeliveryAddress req) (req_Notes req)
                          (30 + 5 * Z.of_nat (length (req_Items req)))%Z built));
                    ("estimated_time",
                     Int (30 + 5 * Z.of_nat (length (req_Items req)))%Z)],
                 mkDB (<[S (order_seq db) :=
                           Order.mk (S (order_seq db)) (userID c)
                             (req_RestaurantID req) None StatusPlaced
                             (req_DeliveryAddress req) (req_Notes req)
                             (30 + 5 * Z.of_nat (length (req_Items req)))%Z built]>
                         (orders db))
                      (S (order_seq db)) (restaurants db) (menu_items db)
                      (histories db ++
                       [OrderStatusHistory.mk (S (length (histories db)))
                          (S (order_seq db)) "" StatusPlaced (userID c)
                          "Order placed by customer"]))) as Hrun.
  { intros req Hj Hvalid r Hr Hopen built Hbuilt.
    unfold PlaceOrder, ShouldBindJSON, middleware.GetUserID.
    rewrite Hj, Hvalid. simpl in Hr. cbn [run exec fst snd]. rewrite Hr, Hopen.
    cbn [negb]. rewrite (PlaceOrder_items_built _ _ _ _ _ built Hbuilt).
    simpl. by rewrite lookup_insert_eq. }
  split; [split |].
  - unfold PlaceOrder, ShouldBindJSON. simpl.
    destruct (json c) as [req|] eqn:Hj; simpl; [| intros H; not_served H].
    destruct (PlaceOrderRequest_valid req) eqn:Hvalid; simpl;
      [| intros H; not_served H].
    destruct (List.find _ (restaurants db)) as [r|] eqn:Hr; simpl;
      [| intros H; not_served H].
    destruct (Restaurant.IsOpen r) eqn:Hopen; simpl; [| intros H; not_served H].
    destruct (mapM (item_snapshot db (req_RestaurantID req)) (req_Items req))
      as [built|] eqn:Hbuilt.
    + intros _. by exists req, r, built.
    + intros H. apply outcome_Success in H.
      match type of H with
      | context [run (PlaceOrder_items ?rid ?items ?acc ?k) db] =>
          destruct (PlaceOrder_items_refused db rid k items acc Hbuilt) as [Hc _]
      end.
      rewrite Hc in H. destruct H; discriminate.
  - intros (req & r & built & Hj & Hvalid & Hr & Hopen & Hbuilt).
    by rewrite (Hrun req Hj Hvalid r Hr Hopen built Hbuilt).
  - intros req built Hj Hbuilt H.
    assert (∃ r, PlaceOrderRequest_valid req = true ∧
                 (exec (FirstRestaurant (req_RestaurantID req)) db).1 = Some r ∧
                 Restaurant.IsOpen r = true) as (r & Hvalid & Hr & Hopen).
    { revert H. unfold PlaceOrder, ShouldBindJSON. simpl. rewrite Hj.
      destruct (PlaceOrderRequest_valid req); simpl; [| intros H; not_served H].
      destruct (List.find _ (restaurants db)) as [r|] eqn:Hr; simpl;
        [| intros H; not_served H].
      destruct (Restaurant.IsOpen r) eqn:Hopen; simpl; [| intros H; not_served H].
      intros _. by exists r. }
    rewrite (Hrun req Hj Hvalid r Hr Hopen built Hbuilt). simpl.
    split; [done |]. split; [done |].
    symmetry. by apply (length_mapM (item_snapshot db (req_RestaurantID req))).
Qed.

(** The customer (user 3) orders two dosas in a store with no orders. *)
Lemma place_order_succeeds_exactly_when_witness :
  (run (handler place_two_dosas) db_empty).2 = db_placed.
Proof.
  destruct (proj2 (place_order_succeeds_exactly_when
                     (mkContext PlaceOrderRequest 3 0
                        (Some (mkPlaceOrderRequest 1 "12 Hill Road" ""
                                 [mkPlaceOrderItem 1 2])))
                     db_empty)
                  (mkPlaceOrderRequest 1 "12 Hill Road" "" [mkPlaceOrderItem 1 2])
                  [OrderItem.mk 1 2 "Masala Dosa"])
    as (_ & H & _); [reflexivity | vm_compute; reflexivity
                     | vm_compute; reflexivity |].
  exact H.
Defined.

(** * From pickup to delivery *)

Section Delivery.

Implicit Types (db : DB) (o : Order.t).

Lemma DeliverOrder_ready {B} (c : Context B) db o :
  orders db !! Param_id c = Some o →
  Order.DriverID o = Some (userID c) →
  Order.Status o = StatusPickedUp →
  outcome_of (run (DeliverOrder c) db).1 = Success.
Proof.
  intros Ho Hd Hs. unfold DeliverOrder, middleware.GetUserID. simpl.
  rewrite Ho. simpl. rewrite Hd, Hs. simpl. by rewrite bool_decide_eq_true_2.
Qed.

(** Rows that a write takes out of a listing. *)
Lemma FindOrders_alter_out (P : Order.t → Prop) `{∀ o, Decision (P o)}
    (f : Order.t → Order.t) db db' id o :
  orders db' = alter f id (orders db) →
  orders db !! id = Some o →
  ¬ P (f o) →
  FindOrders P db' = delete id (FindOrders P db).
Proof.
  intros Hdb Ho Hno. unfold FindOrders. rewrite Hdb.
  apply map_eq. intros i. apply option_eq. intros x.
  destruct (decide (i = id)) as [-> | Hne].
  - rewrite lookup_delete_eq, map_lookup_filter_Some, lookup_alter_eq, Ho.
    simpl. split; [| done]. intros [[= <-] HP]. done.
  - rewrite lookup_delete_ne by done.
    rewrite !map_lookup_filter_Some, lookup_alter_ne by done. done.
Qed.

(** Rows that a write brings into a listing. *)
Lemma FindOrders_alter_in (P : Order.t → Prop) `{∀ o, Decision (P o)}
    (f : Order.t → Order.t) db db' id o :
  orders db' = alter f id (orders db) →
  orders db !! id = Some o →
  P (f o) →
  FindOrders P db' = <[id := f o]> (FindOrders P db).
Proof.
  intros Hdb Ho Hyes. unfold FindOrders. rewrite Hdb.
  apply map_eq. intros i. apply option_eq. intros x.
  destruct (decide (i = id)) as [-> | Hne].
  - rewrite lookup_insert_eq, map_lookup_filter_Some, lookup_alter_eq, Ho.
    simpl. split; [by intros [[= <-] _] | by intros [= <-]].
  - rewrite lookup_insert_ne by done.
    rewrite !map_lookup_filter_Some, lookup_alter_ne by done. done.
Qed.

Lemma FindOrders_lookup (P : Order.t → Prop) `{∀ o, Decision (P o)} db id o :
  FindOrders P db !! id = Some o ↔ orders db !! id = Some o ∧ P o.
Proof. unfold FindOrders. by rewrite map_lookup_filter_Some. Qed.

End Delivery.

(** X14. The driver who picked an order up, and nobody else, can deliver
    it. After a successful [PickupOrder], a [DeliverOrder] for the same
    order by the same driver succeeds, by any other driver it is answered
    403, and a second [PickupOrder] for the order, by anyone, is answered
    409. *)
Theorem picked_up_order_is_delivered_by_its_driver {B : Type} (c : Context B)
    (db : DB) :
  outcome_of (run (PickupOrder c) db).1 = Success →
  outcome_of (run (DeliverOrder c) (run (PickupOrder c) db).2).1 = Success ∧
  (∀ c' : Context B,
     Param_id c' = Param_id c →
     (userID c' ≠ userID c →
      outcome_of (run (DeliverOrder c') (run (PickupOrder c) db).2).1 = Forbidden) ∧
     outcome_of (run (PickupOrder c') (run (PickupOrder c) db).2).1 = Conflict).
Proof.
  intros H. destruct (PickupOrder_success c db H) as (o & Ho & _ & _ & ->).
  set (db1 := mkDB _ _ _ _ _).
  assert (orders db1 !! Param_id c =
          Some (foldl set_column o
                  [status_col StatusPickedUp; driver_id_col (userID c)])) as Ho1.
  { unfold db1. cbn [orders]. by rewrite lookup_alter_eq, Ho. }
  clearbody db1. split.
  - by apply (DeliverOrder_ready c db1 _ Ho1).
  - intros c' Hid. rewrite <- Hid in Ho1. split.
    + intros Hne. rewrite (DeliverOrder_not_assigned c' db1 _ Ho1); [done |].
      simpl. congruence.
    + by rewrite (PickupOrder_assigned c' db1 _ (userID c) Ho1).
Qed.

(** Driver 7 picks up the ready order 1; driver 8 then asks for it. *)
Lemma picked_up_order_is_delivered_by_its_driver_witness :
  outcome_of (run (DeliverOrder (on_order_1 7 (None : option unit)))
                  (run (PickupOrder (on_order_1 7 (None : option unit))) db_ready).2).1
    = Success ∧
  outcome_of (run (DeliverOrder (on_order_1 8 (None : option unit)))
                  (run (PickupOrder (on_order_1 7 (None : option unit))) db_ready).2).1
    = Forbidden.
Proof.
  destruct (picked_up_order_is_delivered_by_its_driver
              (on_order_1 7 (None : option unit)) db_ready) as [H1 H2];
    [vm_compute; reflexivity |].
  split; [exact H1 |].
  apply (H2 (on_order_1 8 None)); [reflexivity | simpl; lia].
Defined.

(** X15. [GetAvailableOrders] lists exactly the orders that a
    [PickupOrder] would succeed on, and counts them. A successful pickup
    takes the order out of that listing, which then counts one less, and
    puts it in [GetMyDeliveries] of the driver. *)
Theorem available_orders_are_the_pickable_ones {B : Type} (c : Context B)
    (db : DB) :
  listing_count (GetAvailableOrders db) = size (listing_orders (GetAvailableOrders db)) ∧
  (is_Some (listing_orders (GetAvailableOrders db) !! Param_id c) ↔
   outcome_of (run (PickupOrder c) db).1 = Success) ∧
  (outcome_of (run (PickupOrder c) db).1 = Success →
   listing_orders (GetAvailableOrders (run (PickupOrder c) db).2) !! Param_id c = None ∧
   S (listing_count (GetAvailableOrders (run (PickupOrder c) db).2)) =
     listing_count (GetAvailableOrders db) ∧
   is_Some (listing_orders (GetMyDeliveries c (run (PickupOrder c) db).2)
              !! Param_id c)).
Proof.
  split; [done |]. split; [split |].
  - intros [o Ho]. unfold GetAvailableOrders in Ho. cbn [listing_orders] in Ho.
    apply FindOrders_lookup in Ho as [Ho [Hs Hd]].
    unfold PickupOrder. simpl. rewrite Ho. simpl. by rewrite Hd, Hs.
  - intros H. destruct (PickupOrder_success c db H) as (o & Ho & Hd & Hv & _).
    apply driver_moves in Hv as [[Hs _] | [_ Hs]]; [| discriminate].
    exists o. unfold GetAvailableOrders. cbn [listing_orders].
    by apply FindOrders_lookup.
  - intros H. destruct (PickupOrder_success c db H) as (o & Ho & Hd & Hv & ->).
    apply driver_moves in Hv as [[Hs _] | [_ Hs]]; [| discriminate].
    unfold GetAvailableOrders, GetMyDeliveries, middleware.GetUserID.
    cbn [listing_orders listing_count].
    erewrite (FindOrders_alter_out _ _ db _ (Param_id c) o);
      [| reflexivity | done | simpl; intros [? _]; discriminate].
    split; [apply lookup_delete_eq |]. split.
    + rewrite map_size_delete_Some; [| exists o; by apply FindOrders_lookup].
      assert (size (FindOrders
                      (fun o => Order.Status o = StatusReadyForPickup ∧
                                Order.DriverID o = None) db) ≠ 0) as Hnz.
      { apply map_size_ne_0_lookup. exists (Param_id c), o.
        by apply FindOrders_lookup. }
      lia.
    + erewrite (FindOrders_alter_in _ _ db _ (Param_id c) o);
        [| reflexivity | done | done].
      rewrite lookup_insert_eq. eauto.
Qed.

(** Driver 7 and the ready order 1. *)
Lemma available_orders_are_the_pickable_ones_witness :
  listing_count (GetAvailableOrders db_ready) = 1 ∧
  S (listing_count
       (GetAvailableOrders
          (run (PickupOrder (on_order_1 7 (None : option unit))) db_ready).2)) =
    listing_count (GetAvailableOrders db_ready).
Proof.
  destruct (available_orders_are_the_pickable_ones
              (on_order_1 7 (None : option unit)) db_ready) as (_ & _ & H).
  destruct H as (_ & H & _); [vm_compute; reflexivity |].
  split; [vm_compute; reflexivity | exact H].
Defined.

(** * The audit trail is a walk *)

Section Trail.

Implicit Types (db : DB) (o : Order.t) (h : OrderStatusHistory.t)
  (l : list OrderStatusHistory.t).

Lemma prefix_app (a b : string) : String.prefix a (a +:+ b) = true.
Proof.
  induction a as [|x a IH]; [by destruct b |].
  change (String x a +:+ b) with (String x (a +:+ b)). simpl.
  by destruct (Ascii.ascii_dec x x).
Qed.

Lemma chained_snoc l : ∀ prev h,
  chained prev l →
  OrderStatusHistory.FromStatus h =
    default prev (OrderStatusHistory.ToStatus <$> last l) →
  row_legal h →
  chained prev (l ++ [h]).
Proof.
  induction l as [|h0 l IH]; intros prev h Hc Hfrom Hrow; simpl in *.
  - done.
  - destruct Hc as (H1 & H2 & H3). split; [done |]. split; [done |].
    apply IH; [done | | done]. rewrite Hfrom, last_cons.
    by destruct (last l).
Qed.

Lemma trail_ok_snoc l h hl :
  trail_ok l →
  last l = Some hl →
  OrderStatusHistory.FromStatus h = OrderStatusHistory.ToStatus hl →
  row_legal h →
  trail_ok (l ++ [h]).
Proof.
  destruct l as [|h0 l]; [done |]. simpl.
  intros (H1 & H2 & H3) Hlast Hfrom Hrow. split; [done |]. split; [done |].
  apply chained_snoc; [done | | done]. rewrite Hfrom.
  rewrite last_cons in Hlast. destruct (last l); simpl; congruence.
Qed.

Lemma History_snoc db db' h id :
  histories db' = histories db ++ [h] →
  History db' id =
    History db id ++ (if decide (OrderStatusHistory.OrderID h = id) then [h] else []).
Proof.
  intros Hh. unfold History. by rewrite Hh, filter_app.
Qed.

Lemma History_none db id :
  (∀ h, h ∈ histories db → OrderStatusHistory.OrderID h ≠ id) →
  History db id = [].
Proof.
  intros Hall. unfold History. apply elem_of_nil_inv. intros h Hin.
  apply list_elem_of_filter in Hin as [Hid Hin]. by apply (Hall h).
Qed.

(** Appending the row of a status change keeps every trail a walk. *)
Lemma trails_change db db' h o :
  consistent db →
  (∀ id, trail_ok (History db id)) →
  histories db' = histories db ++ [h] →
  orders db !! OrderStatusHistory.OrderID h = Some o →
  OrderStatusHistory.FromStatus h = Order.Status o →
  row_legal h →
  ∀ id, trail_ok (History db' id).
Proof.
  intros [Hord _] Htr Hh Ho Hfrom Hrow id.
  rewrite (History_snoc db db' h id Hh). case_decide as Hid.
  - subst id. destruct (Hord _ o Ho) as (_ & hl & Hlast & Hto).
    apply (trail_ok_snoc _ _ hl); [apply Htr | exact Hlast | congruence | done].
  - rewrite app_nil_r. apply Htr.
Qed.

(** Appending the first row of a new order keeps every trail a walk. *)
Lemma trails_place db db' h :
  consistent db →
  (∀ id, trail_ok (History db id)) →
  histories db' = histories db ++ [h] →
  OrderStatusHistory.OrderID h = S (order_seq db) →
  OrderStatusHistory.FromStatus h = "" →
  OrderStatusHistory.ToStatus h = StatusPlaced →
  ∀ id, trail_ok (History db' id).
Proof.
  intros [_ Hhist] Htr Hh Hid Hfrom Hto id.
  rewrite (History_snoc db db' h id Hh). case_decide as Hid'.
  - subst id. rewrite History_none; [done |].
    intros h' Hin. specialize (Hhist h' Hin). lia.
  - rewrite app_nil_r. apply Htr.
Qed.

Lemma trails_operation op db :
  consistent db →
  (∀ id, trail_ok (History db id)) →
  ∀ id, trail_ok (History (run (handler op) db).2 id).
Proof.
  intros Hc Htr. destruct (refused_changes_nothing op db) as [Hok | ->]; [| done].
  destruct op as [c | c | c | c | c | c]; cbn [handler] in *.
  - destruct (PlaceOrder_success c db Hok) as (req & items & _ & ->).
    by eapply (trails_place db).
  - destruct (UpdateOrderStatus_success c db Hok) as (o & req & Ho & _ & Hv & ->).
    eapply (trails_change db _ _ o); [done.. |]. left. by eexists.
  - destruct (CancelOrder_success c db Hok) as (o & Ho & _ & Hv & ->).
    eapply (trails_change db _ _ o); [done.. |]. left. by eexists.
  - destruct (PickupOrder_success c db Hok) as (o & Ho & _ & Hv & ->).
    eapply (trails_change db _ _ o); [done.. |]. left. by eexists.
  - destruct (DeliverOrder_success c db Hok) as (o & Ho & _ & Hv & ->).
    eapply (trails_change db _ _ o); [done.. |]. left. by eexists.
  - destruct (AdminForceOrderStatus_success c db Hok) as (o & req & Ho & _ & ->).
    eapply (trails_change db _ _ o); [done.. |]. right. apply prefix_app.
Qed.

Lemma reachable_trails db : reachable db → ∀ id, trail_ok (History db id).
Proof.
  induction 1 as [rs ms | db op Hr IH | db rs ms _ IH].
  - done.
  - apply trails_operation; [by apply reachable_consistent | done].
  - exact IH.
Qed.

End Trail.

(** X16. Served one request at a time from a store with no orders, the
    history of every order is a walk: its first row has no from-status
    and ends in PLACED, every later row starts from the status the row
    before it ended in, and every later row is a move of the transition
    table (for some actor) or carries the admin override tag at the
    start of its note. *)
Theorem audit_trail_is_a_walk (db : DB) (id : nat) :
  reachable db → trail_ok (History db id).
Proof. intros Hr. by apply reachable_trails. Qed.

(** The trail of the delivered order 1. *)
Lemma audit_trail_is_a_walk_witness : trail_ok trail_delivered.
Proof.
  apply (audit_trail_is_a_walk db_delivered 1). apply sample_stores_reachable.
Defined.

(** * What stays of an order *)

Section Kept.

Implicit Types (db : DB) (o : Order.t).

Lemma kept_refl o : kept o o.
Proof. by repeat split. Qed.

Lemma kept_trans o1 o2 o3 : kept o1 o2 → kept o2 o3 → kept o1 o3.
Proof.
  intros (A1 & A2 & A3 & A4 & A5 & A6 & A7) (B1 & B2 & B3 & B4 & B5 & B6 & B7).
  repeat split; try congruence. intros d Hd. by apply B7, A7.
Qed.

(** A write of columns to one order keeps every order, if the write
    itself keeps the one it is made to. *)
Lemma kept_alter (f : Order.t → Order.t) (m : gmap nat Order.t) id t o ot :
  m !! t = Some ot →
  kept ot (f ot) →
  m !! id = Some o →
  ∃ o', alter f t m !! id = Some o' ∧ kept o o'.
Proof.
  intros Ht Hk Ho. destruct (decide (t = id)) as [-> | Hne].
  - rewrite lookup_alter_eq, Ho. simpl. exists (f o). split; [done |]. congruence.
  - rewrite lookup_alter_ne by done. exists o. split; [done | apply kept_refl].
Qed.

Lemma kept_operation op db id o :
  consistent db →
  orders db !! id = Some o →
  ∃ o', orders (run (handler op) db).2 !! id = Some o' ∧ kept o o'.
Proof.
  intros [Hord _] Ho.
  destruct (refused_changes_nothing op db) as [Hok | ->];
    [| exists o; split; [done | apply kept_refl]].
  destruct op as [c | c | c | c | c | c]; cbn [handler] in *.
  - destruct (PlaceOrder_success c db Hok) as (req & items & _ & ->).
    cbn [orders]. exists o. split; [| apply kept_refl].
    rewrite lookup_insert_ne; [done |]. destruct (Hord id o Ho) as [Hle _]. lia.
  - destruct (UpdateOrderStatus_success c db Hok) as (ot & req & Ht & _ & _ & ->).
    cbn [orders]. case_bool_decide.
    + rewrite alter_alter_eq. by apply (kept_alter _ _ _ _ _ ot).
    + by apply (kept_alter _ _ _ _ _ ot).
  - destruct (CancelOrder_success c db Hok) as (ot & Ht & _ & _ & ->).
    by apply (kept_alter _ _ _ _ _ ot).
  - destruct (PickupOrder_success c db Hok) as (ot & Ht & Hd & _ & ->).
    apply (kept_alter _ _ _ _ _ ot); [done | | done].
    repeat split. intros d Hd'. congruence.
  - destruct (DeliverOrder_success c db Hok) as (ot & Ht & _ & _ & ->).
    by apply (kept_alter _ _ _ _ _ ot).
  - destruct (AdminForceOrderStatus_success c db Hok) as (ot & req & Ht & _ & ->).
    by apply (kept_alter _ _ _ _ _ ot).
Qed.

End Kept.

(** X17. No request deletes an order or rewrites what identifies it.
    Whatever requests are served after a store was reached, an order of
    that store is still there, with the same id, customer, restaurant,
    address, notes and items, and, if it had a driver, with the same
    driver: not even the admin override reassigns or clears it. *)
Theorem orders_are_kept (db : DB) (ops : list operation) (id : nat) (o : Order.t) :
  reachable db →
  orders db !! id = Some o →
  ∃ o', orders (serve_all ops db) !! id = Some o' ∧ kept o o'.
Proof.
  revert db o. induction ops as [|op ops IH]; intros db o Hr Ho.
  - exists o. split; [done | apply kept_refl].
  - destruct (kept_operation op db id o (reachable_consistent db Hr) Ho)
      as (o1 & Ho1 & Hk1).
    destruct (IH _ o1 (reachable_operation db op Hr) Ho1) as (o2 & Ho2 & Hk2).
    exists o2. split; [exact Ho2 | by apply (kept_trans o o1 o2)].
Qed.

(** Order 1 after its pickup by driver 7: driver 8 asks for it, the
    administrator forces it back to READY_FOR_PICKUP, driver 8 asks
    again. *)
Lemma orders_are_kept_witness :
  ∃ o', orders (serve_all
                  [pickup_order (on_order_1 8 None);
                   admin_force_order_status
                     (on_order_1 9 (Some (mkAdminForceRequest StatusReadyForPickup "")));
                   pickup_order (on_order_1 8 None)]
                  db_picked_up) !! 1 = Some o' ∧
        kept (sample_order StatusPickedUp (Some 7) 20) o'.
Proof.
  apply (orders_are_kept db_picked_up).
  - apply sample_stores_reachable.
  - vm_compute. reflexivity.
Defined.

(** * Orders that only the workflow has touched *)

Section Workflow.

Implicit Types (db : DB) (o : Order.t).

Lemma reachable_by_workflow_reachable db : reachable_by_workflow db → reachable db.
Proof.
  induction 1 as [rs ms | db op _ _ IH | db rs ms _ IH].
  - apply reachable_start.
  - by apply reachable_operation.
  - by apply reachable_catalog.
Qed.

Lemma shape_alter (f : Order.t → Order.t) (m : gmap nat Order.t) t ot :
  (∀ id o, m !! id = Some o → workflow_shape o) →
  m !! t = Some ot →
  workflow_shape (f ot) →
  ∀ id o, alter f t m !! id = Some o → workflow_shape o.
Proof.
  intros Hall Ht Hf id o. destruct (decide (t = id)) as [-> | Hne].
  - rewrite lookup_alter_eq, Ht. simpl. by intros [= <-].
  - rewrite lookup_alter_ne by done. apply Hall.
Qed.

(** A move between statuses before the pickup leaves the order without
    a driver. *)
Lemma shape_before_pickup ot o' :
  workflow_shape ot →
  ¬ collected ot →
  Order.DriverID o' = Order.DriverID ot →
  Order.Status o' ∈ all_statuses →
  ¬ collected o' →
  workflow_shape o'.
Proof.
  intros [_ Hd] Hno Hsame Hin Hno'. split; [done |].
  rewrite Hsame. split; [intros H; by apply Hd in H | done].
Qed.

(** An order with a driver and a status after the pickup. *)
Lemma shape_after_pickup o' :
  is_Some (Order.DriverID o') →
  collected o' →
  workflow_shape o'.
Proof.
  intros Hd Hc. split; [| done]. unfold all_statuses.
  destruct Hc as [-> | ->]; set_unfold; auto 10.
Qed.

Lemma shape_operation op db :
  is_override op = false →
  (∀ id o, orders db !! id = Some o → workflow_shape o) →
  ∀ id o, orders (run (handler op) db).2 !! id = Some o → workflow_shape o.
Proof.
  intros Hov Hall.
  destruct (refused_changes_nothing op db) as [Hok | ->]; [| done].
  destruct op as [c | c | c | c | c | c]; try discriminate; cbn [handler] in *.
  - destruct (PlaceOrder_success c db Hok) as (req & items & _ & ->).
    cbn [orders]. intros id o.
    destruct (decide (S (order_seq db) = id)) as [<- | Hne].
    + rewrite lookup_insert_eq. intros [= <-]. split.
      * unfold all_statuses. simpl. repeat constructor.
      * unfold collected. simpl.
        split; [intros [? ?]; discriminate | intros [? | ?]; discriminate].
    + rewrite lookup_insert_ne by done. apply Hall.
  - destruct (UpdateOrderStatus_success c db Hok) as (ot & req & Ht & _ & Hv & ->).
    cbn [orders]. apply restaurant_moves in Hv.
    assert (¬ collected ot ∧ upd_Status req ∈ all_statuses ∧
            upd_Status req ≠ StatusPickedUp ∧ upd_Status req ≠ StatusDelivered)
      as (Hno & Hin & Hn1 & Hn2).
    { unfold collected, all_statuses.
      destruct Hv as [[-> [-> | ->]] | [[-> [-> | ->]] | [-> ->]]];
        (split; [intros [? | ?]; discriminate |]);
        (split; [repeat constructor |]); split; discriminate. }
    case_bool_decide.
    + rewrite alter_alter_eq. apply (shape_alter _ _ _ ot); [done.. |].
      apply (shape_before_pickup ot); [by apply (Hall (Param_id c)) | done.. |].
      unfold collected. simpl. intros [? | ?]; done.
    + apply (shape_alter _ _ _ ot); [done.. |].
      apply (shape_before_pickup ot); [by apply (Hall (Param_id c)) | done.. |].
      unfold collected. simpl. intros [? | ?]; done.
  - destruct (CancelOrder_success c db Hok) as (ot & Ht & _ & Hv & ->).
    cbn [orders]. apply customer_moves in Hv as [Hfrom _].
    apply (shape_alter _ _ _ ot); [done.. |].
    apply (shape_before_pickup ot); [by apply (Hall (Param_id c)) | | done | |].
    + unfold collected. destruct Hfrom as [-> | ->]; intros [? | ?]; discriminate.
    + unfold all_statuses. simpl. repeat constructor.
    + unfold collected. simpl. intros [? | ?]; discriminate.
  - destruct (PickupOrder_success c db Hok) as (ot & Ht & _ & _ & ->).
    cbn [orders]. apply (shape_alter _ _ _ ot); [done.. |].
    apply shape_after_pickup; simpl; [eauto | by left].
  - destruct (DeliverOrder_success c db Hok) as (ot & Ht & Hd & _ & ->).
    cbn [orders]. apply (shape_alter _ _ _ ot); [done.. |].
    apply shape_after_pickup; simpl; [rewrite Hd; eauto | by right].
Qed.

Lemma reachable_by_workflow_shape db :
  reachable_by_workflow db →
  ∀ id o, orders db !! id = Some o → workflow_shape o.
Proof.
  induction 1 as [rs ms | db op Hov _ IH | db rs ms _ IH].
  - intros id o Ho. cbn [orders] in Ho. by rewrite lookup_empty in Ho.
  - by apply shape_operation.
  - exact IH.
Qed.

End Workflow.

(** X18. As long as the admin override is not used, every order has one
    of the seven statuses, and it has a driver exactly when it is
    PICKED_UP or DELIVERED. *)
Theorem driver_is_set_from_pickup_on (db : DB) (id : nat) (o : Order.t) :
  reachable_by_workflow db →
  orders db !! id = Some o →
  Order.Status o ∈ all_statuses ∧
  (is_Some (Order.DriverID o) ↔
   Order.Status o = StatusPickedUp ∨ Order.Status o = StatusDelivered).
Proof. intros Hr Ho. by apply (reachable_by_workflow_shape db Hr id o). Qed.

(** Order 1, picked up by driver 7. *)
Lemma driver_is_set_from_pickup_on_witness :
  is_Some (Some 7) ↔
  StatusPickedUp = StatusPickedUp ∨ StatusPickedUp = StatusDelivered.
Proof.
  refine (proj2 (driver_is_set_from_pickup_on
                   (serve_all [place_two_dosas; confirm_order_1; prepare_order_1;
                               pack_order_1; pickup_order_1] db_empty)
                   1 (sample_order StatusPickedUp (Some 7) 20) _ _)).
  - repeat (apply workflow_operation; [reflexivity |]). apply workflow_start.
  - vm_compute. reflexivity.
Defined.

(** * The dashboard summary *)

Section Summary.

Implicit Types (orders : list Order.t) (summary : gmap string Z) (s : string).

(** One round of the loop: [summary[string(o.Status)]++]. *)
Lemma summary_round summary (o : Order.t) s :
  summary_get
    (<[Order.Status o := (summary_get summary (Order.Status o) + 1)%Z]> summary) s =
  (summary_get summary s + (if decide (Order.Status o = s) then 1 else 0))%Z.
Proof.
  unfold summary_get at 1. case_decide as Hs.
  - subst s. by rewrite lookup_insert_eq.
  - rewrite lookup_insert_ne by done. fold (summary_get summary s). lia.
Qed.

Lemma summary_fold orders : ∀ summary s,
  summary_get
    (foldl (fun summary o =>
              <[Order.Status o := (summary_get summary (Order.Status o) + 1)%Z]>
                summary) summary orders) s =
  (summary_get summary s +
   Z.of_nat (length (filter (fun o => Order.Status o = s) orders)))%Z.
Proof.
  induction orders as [|o orders IH]; intros summary s; simpl.
  - lia.
  - rewrite IH, summary_round, filter_cons. case_decide; simpl; lia.
Qed.

Lemma summary_keys orders : ∀ summary s,
  foldl (fun summary o =>
           <[Order.Status o := (summary_get summary (Order.Status o) + 1)%Z]>
             summary) summary orders !! s = None ↔
  summary !! s = None ∧ Forall (fun o => Order.Status o ≠ s) orders.
Proof.
  induction orders as [|o orders IH]; intros summary s; simpl.
  - split; [intros H; split; [done | constructor] | by intros [H _]].
  - rewrite IH, Forall_cons. destruct (decide (Order.Status o = s)) as [<- | Hne].
    + rewrite lookup_insert_eq. split; [by intros [? _] | by intros (_ & ? & _)].
    + rewrite lookup_insert_ne by done. split; [intros [? ?] | intros (? & _ & ?)]; done.
Qed.

Lemma summary_total_round summary (k : string) :
  summary_total (<[k := (summary_get summary k + 1)%Z]> summary) =
  (summary_total summary + 1)%Z.
Proof.
  unfold summary_total, summary_get.
  destruct (summary !! k) as [n|] eqn:Hn; simpl.
  - rewrite <- insert_delete_eq.
    rewrite map_fold_insert_L; [| intros; lia | apply lookup_delete_eq].
    rewrite (map_fold_delete_L _ _ k n summary); [lia | intros; lia | done].
  - rewrite map_fold_insert_L; [lia | intros; lia | done].
Qed.

Lemma summary_total_fold orders : ∀ summary,
  summary_total
    (foldl (fun summary o =>
              <[Order.Status o := (summary_get summary (Order.Status o) + 1)%Z]>
                summary) summary orders) =
  (summary_total summary + Z.of_nat (length orders))%Z.
Proof.
  induction orders as [|o orders IH]; intros summary; simpl; [lia |].
  rewrite IH.
  etransitivity;
    [apply (f_equal (fun z => (z + Z.of_nat (length orders))%Z));
     apply (summary_total_round summary (Order.Status o)) |].
  lia.
Qed.

End Summary.

(** X19. The dashboard summary counts the rows by status: the number it
    holds for a status is the number of rows with that status, it has
    no entry for a status that no row has, and its numbers add up to the
    number of rows. *)
Theorem order_summary_counts (orders : list Order.t) (s : string) :
  summary_get (order_summary orders) s =
    Z.of_nat (length (filter (fun o => Order.Status o = s) orders)) ∧
  (order_summary orders !! s = None ↔
   Forall (fun o => Order.Status o ≠ s) orders) ∧
  summary_total (order_summary orders) = Z.of_nat (length orders).
Proof.
  unfold order_summary. split; [| split].
  - by rewrite summary_fold.
  - rewrite summary_keys, lookup_empty. split; [by intros [_ ?] | done].
  - by rewrite summary_total_fold.
Qed.

(** * The role check *)

Section Roles.

Implicit Types (roles : list UserRole) (r : UserRole).

Lemma role_allowed_elem_of roles r : role_allowed r roles = true ↔ r ∈ roles.
Proof.
  induction roles as [|r' roles IH]; simpl.
  - split; [done | intros H; by apply elem_of_nil in H].
  - rewrite elem_of_cons. case_bool_decide as Hr.
    + split; [by left | done].
    + rewrite IH. split; [by right | intros [? | ?]; done].
Qed.

(** The loop of [rolesString] is the loop of [describeValidFrom]. *)
Lemma rolesString_loop_join roles : ∀ i s,
  rolesString_loop i roles s = join_statuses i roles s.
Proof. induction roles as [|r roles IH]; intros i s; simpl; [done | apply IH]. Qed.

Lemma rolesString_concat roles : rolesString roles = String.concat ", " roles.
Proof.
  unfold rolesString. rewrite rolesString_loop_join.
  destruct roles as [|r roles]; [done |].
  cbn [join_statuses]. rewrite decide_False by lia.
  rewrite join_statuses_tail by lia.
  destruct roles as [|r' roles]; [done |].
  change (String.concat ", " (r :: r' :: roles))
    with (r +:+ ", " +:+ String.concat ", " (r' :: roles)).
  by rewrite string_app_assoc.
Qed.

End Roles.

(** X20. [RoleRequired(roles...)] lets a request through exactly when
    the context holds a role and that role is one of [roles]; every
    other request is answered 403, and when the role is there but not
    listed the answer names the required roles separated by commas. *)
Theorem role_check_admits_the_listed_roles
    (roles : list UserRole) (role : option string) :
  (RoleRequired roles role = None ↔ ∃ r, role = Some r ∧ r ∈ roles) ∧
  (∀ resp, RoleRequired roles role = Some resp →
     outcome_of resp = Forbidden ∧
     (is_Some role →
      body resp =
        [("error", Str ("Access denied. Required role(s): " +:+
                        String.concat ", " roles))])).
Proof.
  unfold RoleRequired. destruct role as [r|].
  - destruct (role_allowed r roles) eqn:Hr.
    + split; [| done]. split; [| done]. intros _. exists r.
      split; [done | by apply role_allowed_elem_of].
    + split.
      * split; [done |]. intros (r' & [= <-] & Hin).
        apply role_allowed_elem_of in Hin. congruence.
      * intros resp [= <-]. split; [done |]. intros _. simpl.
        by rewrite rolesString_concat.
  - split.
    + split; [done | by intros (r & ? & _)].
    + intros resp [= <-]. split; [done |]. by intros [? ?].
Qed.

(** * The customer's listing *)

(** X21. An order that was placed is in [GetMyOrders] of the customer
    who placed it, as PLACED and under the next order id; that listing
    grows by this one row, and the listing of every other customer is
    what it was. *)
Theorem placed_order_is_listed {B : Type}
    (c : Context PlaceOrderRequest) (other : Context B) (db : DB) :
  reachable db →
  outcome_of (run (PlaceOrder c) db).1 = Success →
  ∃ o,
    Order.Status o = StatusPlaced ∧
    Order.CustomerID o = userID c ∧
    listing_orders (GetMyOrders c (run (PlaceOrder c) db).2) =
      <[S (order_seq db) := o]> (listing_orders (GetMyOrders c db)) ∧
    listing_orders (GetMyOrders c db) !! S (order_seq db) = None ∧
    listing_count (GetMyOrders c (run (PlaceOrder c) db).2) =
      S (listing_count (GetMyOrders c db)) ∧
    (userID other ≠ userID c →
     GetMyOrders other (run (PlaceOrder c) db).2 = GetMyOrders other db).
Proof.
  intros Hr Hok. destruct (reachable_consistent db Hr) as [Hord _].
  destruct (PlaceOrder_success c db Hok) as (req & items & _ & ->).
  assert (orders db !! S (order_seq db) = None) as Hnew.
  { destruct (orders db !! S (order_seq db)) as [o|] eqn:Ho; [| done].
    destruct (Hord _ _ Ho) as [Hle _]. lia. }
  exists (Order.mk (S (order_seq db)) (userID c) (req_RestaurantID req) None
            StatusPlaced (req_DeliveryAddress req) (req_Notes req)
            (30 + 5 * Z.of_nat (length (req_Items req)))%Z items).
  split; [reflexivity |]. split; [reflexivity |].
  unfold GetMyOrders, middleware.GetUserID, FindOrders.
  cbn [listing_orders listing_count orders].
  split; [| split; [| split]].
  - by rewrite map_filter_insert_True.
  - apply map_lookup_filter_None. by left.
  - rewrite map_filter_insert_True by done.
    rewrite map_size_insert_None; [done |].
    apply map_lookup_filter_None. by left.
  - intros Hne. rewrite map_filter_insert_False by (simpl; congruence).
    by rewrite delete_id.
Qed.

(** Customer 3 places the two dosas in the store without orders and
    finds order 1 in the own listing. *)
Lemma placed_order_is_listed_witness :
  ∃ o, Order.Status o = StatusPlaced ∧
       listing_orders (GetMyOrders (on_order_1 3 (@None unit)) db_placed) !! 1 =
         Some o.
Proof.
  destruct (placed_order_is_listed
              (mkContext PlaceOrderRequest 3 0
                 (Some (mkPlaceOrderRequest 1 "12 Hill Road" ""
                          [mkPlaceOrderItem 1 2])))
              (on_order_1 6 (@None unit)) db_empty)
    as (o & Hs & _ & Hl & _);
    [apply sample_stores_reachable | reflexivity |].
  exists o. split; [exact Hs |].
  transitivity
    (<[1 := o]> (listing_orders (GetMyOrders (on_order_1 3 (@None unit)) db_empty))
       !! 1); [| apply lookup_insert_eq].
  apply (f_equal (fun m : gmap nat Order.t => m !! 1)). exact Hl.
Defined.

(** * One record for every transition served *)

Section Served.

Implicit Types (db : DB) (o : Order.t).

(** A request is answered with success exactly when it passes the
    checks its handler makes before it writes. *)
Lemma served_iff_passes_checks (op : operation) db :
  outcome_of (run (handler op) db).1 = Success ↔ passes_checks op db.
Proof.
  destruct op as [c | c | c | c | c | c];
    cbn [handler passes_checks reaches_validator].
  - unfold PlaceOrder, ShouldBindJSON. simpl.
    destruct (json c) as [req|]; simpl;
      [| split; [intros H; not_served H | by intros (? & ? & ? & ? & _)]].
    destruct (PlaceOrderRequest_valid req); simpl;
      [| split; [intros H; not_served H | by intros (? & ? & ? & ? & _)]].
    destruct (List.find _ (restaurants db)) as [r|] eqn:Hr; simpl;
      [| split; [intros H; not_served H |]].
    2: { intros (req' & r' & built & [= <-] & Hr' & _). simpl in Hr'. congruence. }
    destruct (Restaurant.IsOpen r) eqn:Hopen; simpl;
      [| split; [intros H; not_served H |]].
    2: { intros (req' & r' & built & [= <-] & Hr' & Hopen' & _).
         simpl in Hr'. congruence. }
    destruct (mapM (item_snapshot db (req_RestaurantID req)) (req_Items req))
      as [built|] eqn:Hbuilt.
    + rewrite (PlaceOrder_items_built _ _ _ _ _ built Hbuilt). simpl.
      rewrite lookup_insert_eq. simpl.
      split; [intros _; by exists req, r, built | done].
    + match goal with
      | |- context [run (PlaceOrder_items ?rid ?items ?acc ?k) db] =>
          destruct (PlaceOrder_items_refused db rid k items acc Hbuilt) as [Hc _]
      end.
      split.
      * intros H. apply outcome_Success in H. rewrite Hc in H.
        destruct H; discriminate.
      * intros (req' & r' & built & [= <-] & _ & _ & Hb). congruence.
  - unfold UpdateOrderStatus, middleware.GetUserID. simpl.
    destruct (List.find _ (restaurants db)) as [r|] eqn:Hr; simpl;
      [| split; [intros H; not_served H
                | by intros (? & ? & _ & (? & ? & ? & _) & _)]].
    destruct (orders db !! Param_id c) as [o|] eqn:Ho; simpl;
      [| split; [intros H; not_served H | by intros (? & ? & ? & _)]].
    destruct (bool_decide_reflect (Order.RestaurantID o = Restaurant.ID r))
      as [Hown | Hown]; simpl;
      [| split; [intros H; not_served H |]].
    2: { intros (o' & req & [= <-] & (r' & ? & [= <-] & ? & _) & _). done. }
    destruct (ShouldBindJSON UpdateOrderStatusRequest_valid c) as [req|] eqn:Hb;
      simpl; [| split; [intros H; not_served H | by intros (? & ? & _ & _ & ? & _)]].
    destruct (CanTransition (Order.Status o) (upd_Status req) "restaurant")
      eqn:Hv; simpl.
    + split; [intros H; not_served H |].
      intros (o' & req' & [= <-] & _ & [= <-] & Hv'). congruence.
    + split; [| unfold when; by destruct (bool_decide _)].
      intros _. exists o, req. split; [done |]. split; [| done].
      by exists r, req.
  - unfold CancelOrder, middleware.GetUserID. simpl.
    destruct (orders db !! Param_id c) as [o|] eqn:Ho; simpl;
      [| split; [intros H; not_served H | by intros (? & ? & _)]].
    destruct (bool_decide_reflect (Order.CustomerID o = userID c)) as [Hc | Hc];
      simpl; [| split; [intros H; not_served H |]].
    2: { intros (o' & [= <-] & ? & _). done. }
    destruct (CanTransition (Order.Status o) StatusCancelled "customer") eqn:Hv;
      simpl.
    + split; [intros H; not_served H |].
      intros (o' & [= <-] & _ & Hv'). congruence.
    + split; [intros _; by exists o | done].
  - unfold PickupOrder, middleware.GetUserID. simpl.
    destruct (orders db !! Param_id c) as [o|] eqn:Ho; simpl;
      [| split; [intros H; not_served H | by intros (? & ? & _)]].
    destruct (Order.DriverID o) as [d|] eqn:Hd; simpl.
    { split; [intros H; not_served H |].
      intros (o' & [= <-] & ? & _). congruence. }
    destruct (CanTransition (Order.Status o) StatusPickedUp "driver") eqn:Hv;
      simpl.
    + split; [intros H; not_served H |].
      intros (o' & [= <-] & _ & Hv'). congruence.
    + split; [intros _; by exists o | done].
  - unfold DeliverOrder, middleware.GetUserID. simpl.
    destruct (orders db !! Param_id c) as [o|] eqn:Ho; simpl;
      [| split; [intros H; not_served H | by intros (? & ? & _)]].
    destruct (bool_decide_reflect (Order.DriverID o = Some (userID c)))
      as [Hd | Hd]; simpl.
    2: { rewrite orb_true_r. split; [intros H; not_served H |].
         intros (o' & [= <-] & ? & _). done. }
    rewrite orb_false_r, Hd. simpl.
    destruct (CanTransition (Order.Status o) StatusDelivered "driver") eqn:Hv;
      simpl.
    + split; [intros H; not_served H |].
      intros (o' & [= <-] & _ & Hv'). congruence.
    + split; [intros _; by exists o | done].
  - unfold AdminForceOrderStatus. simpl.
    destruct (ShouldBindJSON AdminForceRequest_valid c) as [req|] eqn:Hb; simpl;
      [| split; [intros H; not_served H | by intros (? & ? & _ & ?)]].
    destruct (orders db !! Param_id c) as [o|] eqn:Ho; simpl;
      [| split; [intros H; not_served H | by intros (? & ? & ? & _)]].
    split; [intros _; by exists o, req | done].
Qed.

End Served.



